(** * A shallow embedding of the repository layer and the health-check endpoint

    The development follows [src/core/database/postgresql/repository.py]
    ([PostgresRepository], [Model]) and [src/apis/health_check.py]
    ([HealthCheck]).  Python values, exceptions and attribute access are
    modelled first; then the part of the ORM the repository delegates to
    (declarative constructor, statement objects, session); then the
    repository itself, definition by definition.  The helpers [_count] and
    [_sort_by], which no operation of the repository calls, are left out.

    The session is the caller's: what its database holds, which statements
    the database refuses, whether a commit fails and what a commit leaves
    of the objects the session holds are fields of the session, and the
    properties of the repository are stated relative to them.

    Scope.  A model class has plain scalar columns (no validation hooks,
    no relationships or other instrumented attributes besides the columns);
    its other attributes are plain Python objects.  An instance belongs to
    the repository's session or to none. *)

From Stdlib Require Import ZArith Ascii.
From stdpp Require Import base option list strings gmap.

(** ** Python values *)

(** The values that flow through the repository: scalars, the built-in
    containers, and dictionaries keyed by strings (every mapping of the
    source is a [dict[str, Any]]).  A set carries its elements in iteration
    order.  [VObject] stands for an object the repository does not look
    into (a [MetaData], a registry, a bound method), known by its name; it
    has the truth value and the equality of a plain [object].  Constructs
    of the SQL expression language do not occur among the values passed to
    the repository. *)
#[warnings="-register-all"]
Inductive value : Type :=
  | VNone
  | VBool (b : bool)
  | VInt (z : Z)
  | VStr (s : string)
  | VList (l : list value)
  | VTuple (l : list value)
  | VSet (l : list value)
  | VFrozenSet (l : list value)
  | VDict (d : list (string * value))
  | VObject (tag : string).

(** [len(l) > 0]. *)
Definition nonempty {A : Type} (l : list A) : bool :=
  match l with [] => false | _ :: _ => true end.

(** [bool(v)]: the truth value Python gives to [v] in [if v] and [not v]. *)
Definition truthy (v : value) : bool :=
  match v with
  | VNone => false
  | VBool b => b
  | VInt z => negb (Z.eqb z 0)
  | VStr s => negb (String.eqb s EmptyString)
  | VList l | VTuple l | VSet l | VFrozenSet l => nonempty l
  | VDict d => nonempty d
  | VObject _ => true
  end.

(** [isinstance(v, set)]: a [frozenset] is not a [set]. *)
Definition isinstance_set (v : value) : bool :=
  match v with VSet _ => true | _ => false end.

(** [isinstance(v, dict)]. *)
Definition isinstance_dict (v : value) : bool :=
  match v with VDict _ => true | _ => false end.

(** [v is None]. *)
Definition is_None (v : value) : bool :=
  match v with VNone => true | _ => false end.

(** Lookup in an insertion-ordered dictionary. *)
Fixpoint dict_get {A : Type} (d : list (string * A)) (k : string) : option A :=
  match d with
  | [] => None
  | (k', v) :: d' => if String.eqb k' k then Some v else dict_get d' k
  end.

(** [k in d]. *)
Definition dict_contains {A : Type} (d : list (string * A)) (k : string) : bool :=
  bool_decide (is_Some (dict_get d k)).

(** [k in v] for a value already known to be a dictionary. *)
Definition contains (v : value) (k : string) : bool :=
  match v with VDict d => dict_contains d k | _ => false end.

(** [x == y] in Python: [True] and [False] are the integers 1 and 0, a
    list equals only a list and a tuple only a tuple, a set equals a frozen
    set with the same members, mappings are compared entry by entry, and
    an opaque object equals only itself. *)
Fixpoint py_eq (x y : value) {struct x} : bool :=
  match x, y with
  | VNone, VNone => true
  | VBool a, VBool b => Bool.eqb a b
  | VBool a, VInt b => Z.eqb (Z.b2z a) b
  | VInt a, VBool b => Z.eqb a (Z.b2z b)
  | VInt a, VInt b => Z.eqb a b
  | VStr a, VStr b => String.eqb a b
  | VList l, VList k | VTuple l, VTuple k =>
      (fix elementwise (l k : list value) : bool :=
         match l, k with
         | [], [] => true
         | a :: l', b :: k' => py_eq a b && elementwise l' k'
         | _, _ => false
         end) l k
  | VSet l, VSet k | VSet l, VFrozenSet k
  | VFrozenSet l, VSet k | VFrozenSet l, VFrozenSet k =>
      Nat.eqb (length l) (length k)
      && (fix included (l : list value) : bool :=
            match l with
            | [] => true
            | a :: l' => existsb (py_eq a) k && included l'
            end) l
  | VDict d, VDict e =>
      Nat.eqb (length d) (length e)
      && (fix included (d : list (string * value)) : bool :=
            match d with
            | [] => true
            | (key, a) :: d' =>
                match dict_get e key with
                | Some b => py_eq a b
                | None => false
                end && included d'
            end) d
  | VObject a, VObject b => String.eqb a b
  | _, _ => false
  end.

(** ** Exceptions *)

Inductive exn : Type :=
  | TypeError
  | AttributeError
  | KeyError
  | ValueError
  | ArgumentError
  | NoResultFound
  | MultipleResultsFound
  | InvalidRequestError
  | MissingGreenlet
  | CompileError
  | DBAPIError.

Inductive result (A : Type) : Type :=
  | Ok (a : A)
  | Raise (e : exn).
Arguments Ok {A} a.
Arguments Raise {A} e.

#[global] Instance result_ret : MRet result := λ A a, Ok a.
#[global] Instance result_bind : MBind result := λ A B f r,
  match r with Ok a => f a | Raise e => Raise e end.

(** A [for] loop whose body may raise: the accumulator is threaded from
    left to right and the first exception ends the loop. *)
Fixpoint foldM {A B : Type} (f : A → B → result A) (a : A) (l : list B)
    : result A :=
  match l with
  | [] => Ok a
  | b :: l' => a' ← f a b; foldM f a' l'
  end.

(** A list comprehension whose element expression may raise. *)
Fixpoint mapM {A B : Type} (f : A → result B) (l : list A) : result (list B) :=
  match l with
  | [] => Ok []
  | a :: l' => b ← f a; bs ← mapM f l'; Ok (b :: bs)
  end.

(** Whether a computation returned. *)
Definition is_Ok {A : Type} (r : result A) : bool :=
  match r with Ok _ => true | Raise _ => false end.

(** ** Model classes and instances *)

(** A column of [__table__.columns].  [col_default] is the insert default
    the column declares, if any. *)
Record Column : Type := {
  name : string;
  col_default : option value }.

(** An attribute of a model class that is not a mapped column: the value
    attribute lookup finds on the class; the exception that assigning a
    value to it on an instance raises, if the assignment is refused
    ([__class__] refuses an integer with [TypeError]; [metadata] takes
    anything); whether the instances of the class see the attribute
    (they do not see what the class has from its metaclass, such as
    [__name__]); and whether the SQL expression functions take the object
    as an operand, binding it as a literal (they refuse a schema object,
    such as the table in [__table__]). *)
Record ClassAttribute : Type := {
  attr_value : value;
  attr_set : value → option exn;
  on_instance : bool;
  sql_operand : bool }.

(** A concrete subclass of [Model]: its table columns, in table order, and
    the other attributes lookup finds on the class, by name: those every
    declarative class has ([metadata], [registry], [__class__], ...) and
    those the subclass adds.  [as_dict], which [Model] defines, is not
    listed.  Relationships and other instrumented attributes that are not
    columns are outside the model. *)
Record ModelClass : Type := {
  columns : list Column;
  class_attributes : list (string * ClassAttribute) }.

(** What attribute lookup on a model class finds: a mapped column, the
    read-only property [as_dict] of [Model], or another object. *)
Inductive class_attr : Type :=
  | AColumn (c : Column)
  | AProperty
  | AObject (a : ClassAttribute).

(** The column named [k], if the table has one. *)
Fixpoint find_column (cs : list Column) (k : string) : option Column :=
  match cs with
  | [] => None
  | c :: cs' => if String.eqb (name c) k then Some c else find_column cs' k
  end.

(** [getattr(cls, k)]. *)
Definition getattr_class (cls : ModelClass) (k : string) : result class_attr :=
  match find_column (columns cls) k with
  | Some c => Ok (AColumn c)
  | None =>
      match dict_get (class_attributes cls) k with
      | Some a => Ok (AObject a)
      | None =>
          if String.eqb k "as_dict" then Ok AProperty
          else Raise AttributeError
      end
  end.

(** [hasattr(cls, k)]. *)
Definition hasattr_class (cls : ModelClass) (k : string) : bool :=
  is_Ok (getattr_class cls k).

(** Whether the instances of the class see its attribute [k]. *)
Definition visible (cls : ModelClass) (k : string) : bool :=
  match getattr_class cls k with
  | Ok (AObject o) => on_instance o
  | Ok _ => true
  | Raise _ => false
  end.

(** The exception [setattr(self, k, v)] raises on an instance for an
    attribute the class has: none for a column, [AttributeError] for the
    property without a setter, what the class attribute says if the
    instance sees it, and none if it does not (the value then becomes an
    attribute of the instance). *)
Definition assignment_error (a : class_attr) (v : value) : option exn :=
  match a with
  | AColumn _ => None
  | AProperty => Some AttributeError
  | AObject o => if on_instance o then attr_set o v else None
  end.

(** The name under which the ORM keeps its state object on every mapped
    instance. *)
Definition STATE_ATTR : string := "_sa_instance_state".

(** A model object: its class; the attribute values assigned on the
    instance; whether the session has expired it (the columns of an
    expired instance that are missing from the dictionary have to be
    loaded before they can be read); and the entry [_sa_instance_state] of
    the instance: [None] while it is the ORM's own state object, [Some v]
    once [v] was assigned over it. *)
Record Instance : Type := {
  inst_class : ModelClass;
  inst_dict : gmap string value;
  inst_expired : bool;
  inst_state : option value }.

(** The value of a mapped column on an instance whose columns are loaded;
    a column that was never assigned reads [None]. *)
Definition column_value (self : Instance) (k : string) : value :=
  default VNone (inst_dict self !! k).

(** Reading a mapped column: on an expired instance a missing column needs
    a load, which the asynchronous session cannot do implicitly. *)
Definition read_column (self : Instance) (k : string) : result value :=
  match inst_dict self !! k with
  | Some v => Ok v
  | None => if inst_expired self then Raise MissingGreenlet else Ok VNone
  end.

(** Whether every column can be read without a load. *)
Definition loaded (self : Instance) : bool :=
  forallb (λ c, is_Ok (read_column self (name c))) (columns (inst_class self)).

(** [Model.as_dict]:
    [{c.name: getattr(self, c.name) for c in self.__table__.columns}],
    the mapping the property evaluates to when the columns are loaded
    (see [getattr] for the property on an expired instance). *)
Definition as_dict (self : Instance) : list (string * value) :=
  (λ c, (name c, column_value self (name c))) <$> columns (inst_class self).

(** [getattr(self, k)] on an instance.  A column is read; the property is
    evaluated; another attribute of the class that instances see reads
    the value assigned over it on the instance, if any, and the class's
    value otherwise; any other name is looked up on the instance, where
    the ORM's state object is always found. *)
Definition getattr (self : Instance) (k : string) : result value :=
  let on_the_instance : result value :=
    match inst_dict self !! k with
    | Some v => Ok v
    | None => Raise AttributeError
    end in
  match getattr_class (inst_class self) k with
  | Ok (AColumn _) => read_column self k
  | Ok AProperty =>
      if loaded self then Ok (VDict (as_dict self)) else Raise MissingGreenlet
  | Ok (AObject o) =>
      if on_instance o
      then Ok (default (attr_value o) (inst_dict self !! k))
      else on_the_instance
  | Raise _ =>
      if String.eqb k STATE_ATTR
      then Ok (default (VObject "InstanceState") (inst_state self))
      else on_the_instance
  end.

(** [hasattr(self, k)]: only [AttributeError] means the attribute is
    absent; any other exception of the lookup propagates. *)
Definition hasattr (self : Instance) (k : string) : result bool :=
  match getattr self k with
  | Ok _ => Ok true
  | Raise AttributeError => Ok false
  | Raise e => Raise e
  end.

(** The instance after [k] was stored in its dictionary. *)
Definition stored (self : Instance) (k : string) (v : value) : Instance :=
  {| inst_class := inst_class self;
     inst_dict := <[k := v]> (inst_dict self);
     inst_expired := inst_expired self;
     inst_state := inst_state self |}.

(** The instance after [v] was assigned over the ORM's state object. *)
Definition state_overwritten (self : Instance) (v : value) : Instance :=
  {| inst_class := inst_class self;
     inst_dict := inst_dict self;
     inst_expired := inst_expired self;
     inst_state := Some v |}.

(** [setattr(self, k, v)]: an attribute that refuses the assignment
    raises; everything else is stored on the instance. *)
Definition setattr (self : Instance) (k : string) (v : value) : result Instance :=
  match getattr_class (inst_class self) k with
  | Ok a =>
      match assignment_error a v with
      | Some e => Raise e
      | None => Ok (stored self k v)
      end
  | Raise _ =>
      if String.eqb k STATE_ATTR then Ok (state_overwritten self v)
      else Ok (stored self k v)
  end.

(** An entry [k: v] of a mapping that [setattr] accepts on the instances of
    the class: if the class has the attribute [k], it does not refuse
    [v]. *)
Definition assignable (cls : ModelClass) (kv : string * value) : Prop :=
  ∀ a, getattr_class cls kv.1 = Ok a → assignment_error a kv.2 = None.

(** What a commit does to an object the session holds when the session
    was made with [expire_on_commit], the default: the columns are dropped
    from the instance dictionary and have to be loaded again. *)
Definition expire (self : Instance) : Instance :=
  {| inst_class := inst_class self;
     inst_dict :=
       filter (λ kv, ¬ is_Some (find_column (columns (inst_class self)) kv.1))
              (inst_dict self);
     inst_expired := true;
     inst_state := inst_state self |}.

(** The declarative constructor the ORM gives every mapped class (the
    class called with keyword arguments): each keyword must name an
    attribute of the class, otherwise [TypeError]; accepted keywords are
    assigned in order.  Column defaults are not consulted here: they are
    applied when the row is inserted. *)
Definition assign_keyword (cls : ModelClass) (self : Instance)
    (kv : string * value) : result Instance :=
  let '(k, v) := kv in
  if hasattr_class cls k then setattr self k v else Raise TypeError.

Definition construct (cls : ModelClass) (kwargs : list (string * value))
    : result Instance :=
  foldM (assign_keyword cls)
        {| inst_class := cls; inst_dict := ∅; inst_expired := false;
           inst_state := None |} kwargs.

(** ** Statements *)

(** [str.lower()] on the ASCII range. *)
Definition lower_ascii (a : ascii) : ascii :=
  let n := nat_of_ascii a in
  if (65 <=? n) && (n <=? 90) then ascii_of_nat (n + 32) else a.

Fixpoint lower (s : string) : string :=
  match s with
  | EmptyString => EmptyString
  | String a s' => String (lower_ascii a) (lower s')
  end.

(** The filter expressions the repository builds: [attr == v],
    [between(attr, lo, hi)] and [and_(...)].  Comparing an attribute that
    is not a column is a Python comparison, whose truth value becomes the
    filter. *)
#[warnings="-register-all"]
Inductive cond : Type :=
  | CEq (a : class_attr) (v : value)
  | CBetween (a : class_attr) (lo hi : value)
  | CAnd (cs : list cond).

Inductive direction : Type := Asc | Desc.

(** A [Select] over one mapped class, as the repository composes it. *)
Record Select : Type := {
  entity : ModelClass;
  joined : list string;
  whereclause : list cond;
  order_by_clauses : list (class_attr * direction);
  offset_clause : option Z;
  limit_clause : option Z }.

(** [select(cls)] and the generative methods of the statement. *)
Definition select (cls : ModelClass) : Select :=
  {| entity := cls; joined := []; whereclause := []; order_by_clauses := [];
     offset_clause := None; limit_clause := None |}.

Definition where_ (q : Select) (c : cond) : Select :=
  {| entity := entity q; joined := joined q;
     whereclause := whereclause q ++ [c];
     order_by_clauses := order_by_clauses q;
     offset_clause := offset_clause q; limit_clause := limit_clause q |}.

Definition order_by (q : Select) (o : class_attr * direction) : Select :=
  {| entity := entity q; joined := joined q; whereclause := whereclause q;
     order_by_clauses := order_by_clauses q ++ [o];
     offset_clause := offset_clause q; limit_clause := limit_clause q |}.

Definition offset (q : Select) (n : Z) : Select :=
  {| entity := entity q; joined := joined q; whereclause := whereclause q;
     order_by_clauses := order_by_clauses q;
     offset_clause := Some n; limit_clause := limit_clause q |}.

Definition limit (q : Select) (n : Z) : Select :=
  {| entity := entity q; joined := joined q; whereclause := whereclause q;
     order_by_clauses := order_by_clauses q;
     offset_clause := offset_clause q; limit_clause := Some n |}.

(** [query.join(rel)], for the join handlers of subclasses. *)
Definition join (q : Select) (rel : string) : Select :=
  {| entity := entity q; joined := joined q ++ [rel];
     whereclause := whereclause q; order_by_clauses := order_by_clauses q;
     offset_clause := offset_clause q; limit_clause := limit_clause q |}.

(** *** What a statement selects *)

(** SQL equality between a stored value and a bound one; [attr == None]
    is rendered [IS NULL].  Only values the driver can bind get here (see
    [executable]); a statement with another value fails instead. *)
Definition sql_eq (x v : value) : bool :=
  match x, v with
  | VNone, VNone => true
  | VBool a, VBool b => Bool.eqb a b
  | VInt a, VInt b => Z.eqb a b
  | VStr a, VStr b => String.eqb a b
  | _, _ => false
  end.

(** SQL [<=] on comparable scalars ([false <= true]); a comparison
    involving NULL selects nothing. *)
Definition sql_le (x y : value) : bool :=
  match x, y with
  | VInt a, VInt b => Z.leb a b
  | VStr a, VStr b => String.leb a b
  | VBool a, VBool b => implb a b
  | _, _ => false
  end.

(** The values the driver can bind to a parameter of a scalar column. *)
Definition bindable (v : value) : bool :=
  match v with
  | VNone | VBool _ | VInt _ | VStr _ => true
  | _ => false
  end.

(** The value the operand of a range denotes for a row: the row's value
    for a column; for another class attribute its own value, a literal of
    the statement, if the driver can bind it. *)
Definition operand (a : class_attr) (row : Instance) : option value :=
  match a with
  | AColumn col => Some (column_value row (name col))
  | AProperty => None
  | AObject o => if bindable (attr_value o) then Some (attr_value o) else None
  end.

(** Whether a row satisfies a filter, for a filter the database can
    evaluate (see [executable]).  [==] on an attribute that is not a column
    is evaluated by Python when the filter is built: the property object
    equals no value, another class attribute compares as its value does. *)
Fixpoint holds (c : cond) (row : Instance) : bool :=
  match c with
  | CEq (AColumn col) v => sql_eq (column_value row (name col)) v
  | CEq AProperty _ => false
  | CEq (AObject o) v => py_eq (attr_value o) v
  | CBetween a lo hi =>
      match operand a row with
      | Some x => sql_le lo x && sql_le x hi
      | None => false
      end
  | CAnd cs => forallb (λ c', holds c' row) cs
  end.

(** The filters the database can evaluate at all: every value of the
    statement must be one the driver can bind.  A range over the property
    object, or over a class attribute that holds no scalar, fails when the
    statement is executed. *)
Fixpoint executable (c : cond) : bool :=
  match c with
  | CEq (AColumn _) v => bindable v
  | CEq _ _ => true
  | CBetween (AColumn _) lo hi => bindable lo && bindable hi
  | CBetween AProperty _ _ => false
  | CBetween (AObject o) lo hi =>
      bindable (attr_value o) && bindable lo && bindable hi
  | CAnd cs => forallb executable cs
  end.

Definition non_negative (n : option Z) : bool :=
  match n with Some z => (0 <=? z)%Z | None => true end.

(** The statements the database accepts at all: it rejects a negative
    [OFFSET] or [LIMIT] and a filter it cannot evaluate. *)
Definition well_formed (q : Select) : bool :=
  non_negative (offset_clause q) && non_negative (limit_clause q)
  && forallb executable (whereclause q).

(** Ordering of stored values, NULL greatest. *)
Definition sql_compare (x y : value) : comparison :=
  match x, y with
  | VInt a, VInt b => Z.compare a b
  | VStr a, VStr b => String.compare a b
  | VBool a, VBool b => Nat.compare (Nat.b2n a) (Nat.b2n b)
  | VNone, VNone => Eq
  | VNone, _ => Gt
  | _, VNone => Lt
  | _, _ => Eq
  end.

(** Two rows under the [ORDER BY] clauses, first clause first. *)
Fixpoint row_compare (os : list (class_attr * direction)) (r1 r2 : Instance)
    : comparison :=
  match os with
  | [] => Eq
  | (AProperty, _) :: os' | (AObject _, _) :: os' => row_compare os' r1 r2
  | (AColumn col, d) :: os' =>
      let c := sql_compare (column_value r1 (name col))
                           (column_value r2 (name col)) in
      match (match d with Asc => c | Desc => CompOpp c end) with
      | Eq => row_compare os' r1 r2
      | c' => c'
      end
  end.

(** Insertion before the first element that is not smaller. *)
Fixpoint insert_sorted {A : Type} (cmp : A → A → comparison) (x : A)
    (l : list A) : list A :=
  match l with
  | [] => [x]
  | y :: l' =>
      match cmp x y with
      | Gt => y :: insert_sorted cmp x l'
      | _ => x :: l
      end
  end.

(** A stable sort. *)
Definition stable_sort {A : Type} (cmp : A → A → comparison) (l : list A)
    : list A :=
  foldr (insert_sorted cmp) [] l.

(** ** The session *)

(** The calls the repository makes on the session it borrows. *)
Inductive call : Type :=
  | Add (m : Instance)
  | Delete (m : Instance)
  | Commit
  | Scalars (q : Select)
  | Execute (q : Select).

(** The session the repository borrows.  The database behind it: the rows
    of the model's table and, for each relation, the number of rows it
    joins to a table row.  The calls received so far.  And what is the
    session's own business, not the repository's: the exception the
    session raises for a statement ([refuses]: a value out of the range of
    its column, an [ORDER BY] term that cannot be compiled, a lost
    connection); the exception [delete] raises for an instance
    ([refuses_delete]: an instance that is not persistent); the exception
    a commit raises after the calls before it ([commit_error]: a
    constraint violated at flush); and what a commit leaves of an object
    the session holds ([after_commit]: the object expired, when the
    session was made with [expire_on_commit], the default; otherwise the
    object with the values the flush generated). *)
Record AsyncSession : Type := {
  table : list Instance;
  related : string → nat → nat;
  calls : list call;
  refuses : Select → option exn;
  refuses_delete : Instance → option exn;
  commit_error : list call → option exn;
  after_commit : Instance → Instance }.

(** A result row: the identity of the entity and the entity. *)
Definition Row : Type := nat * Instance.

(** The rows a well-formed statement returns: joins multiply rows, the
    filters select, then ordering, offset and limit apply.  The database
    rejects a negative offset or limit ([well_formed]), so the conversion
    to a count is exact wherever the session consults this function. *)
Definition fetch (db : AsyncSession) (q : Select) : list Row :=
  let base : list Row := imap (λ i m, (i, m)) (table db) in
  let joined_rows :=
    foldl (λ rs rel, rs ≫= (λ r : Row, replicate (related db rel r.1) r))
          base (joined q) in
  let selected :=
    List.filter (λ r : Row, forallb (λ c, holds c r.2) (whereclause q))
                joined_rows in
  let ordered :=
    stable_sort (λ r1 r2 : Row, row_compare (order_by_clauses q) r1.2 r2.2)
                selected in
  let skipped :=
    match offset_clause q with
    | Some n => drop (Z.to_nat n) ordered
    | None => ordered
    end in
  match limit_clause q with
  | Some n => take (Z.to_nat n) skipped
  | None => skipped
  end.

(** [Result.unique()]: one row per entity, first occurrence kept. *)
Fixpoint unique_from (seen : list nat) (rs : list Row) : list Row :=
  match rs with
  | [] => []
  | r :: rs' =>
      if bool_decide (r.1 ∈ seen) then unique_from seen rs'
      else r :: unique_from (r.1 :: seen) rs'
  end.

Definition unique (rs : list Row) : list Row := unique_from [] rs.

(** [Result.scalars()]. *)
Definition scalars (rs : list Row) : list Instance := rs.*2.

(** [ScalarResult.one()]. *)
Definition one {A : Type} (l : list A) : result A :=
  match l with
  | [] => Raise NoResultFound
  | [x] => Ok x
  | _ :: _ :: _ => Raise MultipleResultsFound
  end.

(** [ScalarResult.one_or_none()]. *)
Definition one_or_none {A : Type} (l : list A) : result (option A) :=
  match l with
  | [] => Ok None
  | [x] => Ok (Some x)
  | _ :: _ :: _ => Raise MultipleResultsFound
  end.

(** [ScalarResult.first()]. *)
Definition first {A : Type} (l : list A) : option A := head l.

(** Computations that use the session and may raise. *)
Definition M (A : Type) : Type := AsyncSession → result A * AsyncSession.

#[global] Instance M_ret : MRet M := λ A a s, (Ok a, s).
#[global] Instance M_bind : MBind M := λ A B f m s,
  match m s with
  | (Ok a, s') => f a s'
  | (Raise e, s') => (Raise e, s')
  end.

(** A computation that does not touch the session. *)
Definition lift {A : Type} (r : result A) : M A := λ s, (r, s).

(** The session after one more call. *)
Definition logged (s : AsyncSession) (c : call) : AsyncSession :=
  {| table := table s; related := related s; calls := calls s ++ [c];
     refuses := refuses s; refuses_delete := refuses_delete s;
     commit_error := commit_error s;
     after_commit := after_commit s |}.

(** The exception executing a statement raises, if any: [DBAPIError] for
    a statement the database rejects, else what the session says. *)
Definition statement_error (s : AsyncSession) (q : Select) : option exn :=
  if well_formed q then refuses s q else Some DBAPIError.

(** What the session finds when it asks an instance for its state
    object: a value assigned over it has none of the state's attributes. *)
Definition instance_state (m : Instance) : result () :=
  match inst_state m with
  | None => Ok ()
  | Some _ => Raise AttributeError
  end.

(** [session.add(m)]: the object is registered with the session; nothing
    is sent to the database before a flush. *)
Definition session_add (m : Instance) : M () := λ s,
  (instance_state m, logged s (Add m)).

(** [await session.delete(m)]. *)
Definition session_delete (m : Instance) : M () := λ s,
  (_ ← instance_state m;
   match refuses_delete s m with Some e => Raise e | None => Ok () end,
   logged s (Delete m)).

(** [await session.commit()]. *)
Definition session_commit : M () := λ s,
  (match commit_error s (calls s) with Some e => Raise e | None => Ok () end,
   logged s Commit).

(** An object the session holds, as the last commit left it. *)
Definition committed (m : Instance) : M Instance := λ s,
  (Ok (after_commit s m), s).

(** [await session.scalars(q)]. *)
Definition session_scalars (q : Select) : M (list Instance) := λ s,
  (match statement_error s q with
   | Some e => Raise e
   | None => Ok (scalars (fetch s q))
   end, logged s (Scalars q)).

(** [await session.execute(q)]. *)
Definition session_execute (q : Select) : M (list Row) := λ s,
  (match statement_error s q with
   | Some e => Raise e
   | None => Ok (fetch s q)
   end, logged s (Execute q)).

(** ** Python protocols used by the repository *)

(** [v.items()]. *)
Definition items (v : value) : result (list (string * value)) :=
  match v with VDict d => Ok d | _ => Raise AttributeError end.

(** Passing [v] as keyword arguments. *)
Definition keywords (v : value) : result (list (string * value)) :=
  match v with VDict d => Ok d | _ => Raise TypeError end.

(** [v[k]] with a string subscript. *)
Definition getitem (v : value) (k : string) : result value :=
  match v with
  | VDict d =>
      match dict_get d k with Some x => Ok x | None => Raise KeyError end
  | _ => Raise TypeError
  end.

(** The elements [for x in v] visits. *)
Definition iter (v : value) : result (list value) :=
  match v with
  | VList l | VTuple l | VSet l | VFrozenSet l => Ok l
  | VDict d => Ok (VStr <$> d.*1)
  | VStr s =>
      Ok ((λ a, VStr (String a EmptyString)) <$> String.list_ascii_of_string s)
  | _ => Raise TypeError
  end.

(** [functools.reduce(f, iterable, initial)]. *)
Definition reduce {A : Type} (f : A → value → result A) (iterable : value)
    (initial : A) : result A :=
  l ← iter iterable; foldM f initial l.

(** [a, b = v]. *)
Definition unpack2 (v : value) : result (value * value) :=
  l ← iter v;
  match l with
  | [a; b] => Ok (a, b)
  | _ => Raise ValueError
  end.

(** [getattr(cls, k)] where [k] is any value. *)
Definition getattr_class_of (cls : ModelClass) (k : value) : result class_attr :=
  match k with VStr s => getattr_class cls s | _ => Raise TypeError end.

(** [v.lower()]. *)
Definition str_lower (v : value) : result string :=
  match v with VStr s => Ok (lower s) | _ => Raise AttributeError end.

(** Whether [asc(x)] and [desc(x)] accept [x]: a column, or a class
    attribute holding a string, [None] or a Boolean, which they take as a
    textual or constant term of the [ORDER BY] (what becomes of a
    statement with such a term is the session's to say); any other object
    is refused. *)
Definition orderable (a : class_attr) : bool :=
  match a with
  | AColumn _ => true
  | AProperty => false
  | AObject o =>
      match attr_value o with
      | VStr _ | VNone | VBool _ => true
      | _ => false
      end
  end.

(** The ordering functions [asc(x)] and [desc(x)]. *)
Definition asc (a : class_attr) : result (class_attr * direction) :=
  if orderable a then Ok (a, Asc) else Raise ArgumentError.
Definition desc (a : class_attr) : result (class_attr * direction) :=
  if orderable a then Ok (a, Desc) else Raise ArgumentError.

(** The column methods [x.asc()] and [x.desc()]. *)
Definition asc_method (a : class_attr) : result (class_attr * direction) :=
  match a with AColumn _ => Ok (a, Asc) | _ => Raise AttributeError end.
Definition desc_method (a : class_attr) : result (class_attr * direction) :=
  match a with AColumn _ => Ok (a, Desc) | _ => Raise AttributeError end.

(** [between(x, lo, hi)]: the operand is a column, or an object bound as a
    literal; a schema object is refused. *)
Definition between (a : class_attr) (lo hi : value) : result cond :=
  match a with
  | AColumn _ | AProperty => Ok (CBetween a lo hi)
  | AObject o =>
      if sql_operand o then Ok (CBetween a lo hi) else Raise ArgumentError
  end.

(** ** PostgresRepository *)

(** A repository: the model class it serves and the [_join_<name>] methods
    its subclass defines, by method name.  The session it holds
    ([self.session]) is the state threaded through [M]. *)
Record PostgresRepository : Type := {
  model_class : ModelClass;
  methods : gmap string (Select → Select) }.

(** What [get_by] returns: one model, or a list of models. *)
Inductive found : Type :=
  | Single (m : Instance)
  | Several (ms : list Instance).

(** [create]: construct, then [session.add]; an exception of the
    constructor leaves before the session is touched. *)
Definition create (self : PostgresRepository) (attributes : value)
    : M Instance :=
  let attributes := if is_None attributes then VDict [] else attributes in
  model ← lift (kw ← keywords attributes; construct (model_class self) kw);
  _ ← session_add model;
  mret model.

(** [_add_join_to_query]: [getattr(self, '_join_' + join_)(query)]. *)
Definition _add_join_to_query (self : PostgresRepository) (query : Select)
    (join_ : value) : result Select :=
  match join_ with
  | VStr s =>
      match methods self !! ("_join_" +:+ s) with
      | Some m => Ok (m query)
      | None => Raise AttributeError
      end
  | _ => Raise TypeError
  end.

(** [_maybe_join]: the emptiness test first, the set test second, then
    [reduce] over the set. *)
Definition _maybe_join (self : PostgresRepository) (query : Select)
    (join_ : value) : result Select :=
  if negb (truthy join_) then Ok query
  else if negb (isinstance_set join_) then Raise TypeError
  else reduce (_add_join_to_query self) join_ query.

Definition _maybe_ordered (self : PostgresRepository) (query : Select)
    (order_ : value) : result Select :=
  if truthy order_ then
    ascending ← getitem order_ "asc";
    if truthy ascending then
      reduce (λ query order,
                a ← getattr_class_of (model_class self) order;
                o ← asc_method a; Ok (order_by query o))
             ascending query
    else
      descending ← getitem order_ "desc";
      reduce (λ query order,
                a ← getattr_class_of (model_class self) order;
                o ← desc_method a; Ok (order_by query o))
             descending query
  else Ok query.

Definition _query (self : PostgresRepository) (join_ order_ : value)
    : result Select :=
  let query := select (model_class self) in
  query ← _maybe_join self query join_;
  query ← _maybe_ordered self query order_;
  Ok query.

Definition _all (self : PostgresRepository) (query : Select)
    : M (list Instance) :=
  session_scalars query.

Definition all_unique (self : PostgresRepository) (query : Select)
    : M (list Instance) :=
  result ← session_execute query;
  mret (scalars (unique result)).

Definition _first (self : PostgresRepository) (query : Select)
    : M (option Instance) :=
  query ← session_scalars query;
  mret (first query).

Definition _one_or_none (self : PostgresRepository) (query : Select)
    : M (option Instance) :=
  query ← session_scalars query;
  lift (one_or_none query).

Definition _one (self : PostgresRepository) (query : Select) : M Instance :=
  query ← session_scalars query;
  lift (one query).

(** [_get_by]: [query.where(getattr(self.model_class, field) == value)]. *)
Definition _get_by (self : PostgresRepository) (query : Select)
    (field : string) (v : value) : result Select :=
  a ← getattr_class (model_class self) field;
  Ok (where_ query (CEq a v)).

(** One entry of [where]: the body of the loop in [get_all]. *)
Definition where_condition (self : PostgresRepository) (kv : string * value)
    : result cond :=
  let '(k, v) := kv in
  if isinstance_dict v && contains v "$gt" && contains v "$lt" then
    a ← getattr_class (model_class self) k;
    lo ← getitem v "$gt";
    hi ← getitem v "$lt";
    between a lo hi
  else
    a ← getattr_class (model_class self) k;
    Ok (CEq a v).

Definition get_all (self : PostgresRepository) (skip limit_ : Z)
    (join_ where' order_by_ : value) : M (list Instance) :=
  query ← lift (_query self join_ VNone);
  let query := limit (offset query skip) limit_ in
  query ← lift (
    if negb (is_None where') then
      kvs ← items where';
      conditions ← mapM (where_condition self) kvs;
      Ok (where_ query (CAnd conditions))
    else Ok query);
  query ← lift (
    if negb (is_None order_by_) then
      '(column, direction) ← unpack2 order_by_;
      d ← str_lower direction;
      if String.eqb d "desc" then
        a ← getattr_class_of (model_class self) column;
        o ← desc a; Ok (order_by query o)
      else
        a ← getattr_class_of (model_class self) column;
        o ← asc a; Ok (order_by query o)
    else Ok query);
  if negb (is_None join_) then all_unique self query
  else _all self query.

(** [get_by]: the test on [join_] comes before the test on [unique]. *)
Definition get_by (self : PostgresRepository) (field : string) (v : value)
    (join_ : value) (unique_ : bool) : M found :=
  query ← lift (_query self join_ VNone);
  query ← lift (_get_by self query field v);
  if negb (is_None join_) then ms ← all_unique self query; mret (Several ms)
  else if unique_ then m ← _one self query; mret (Single m)
  else ms ← _all self query; mret (Several ms).

Definition delete (self : PostgresRepository) (model : Instance) : M () :=
  session_delete model.

(** The body of the loop in [update]. *)
Definition update_attribute (model : Instance) (kv : string * value)
    : result Instance :=
  let '(key, v) := kv in
  match hasattr model key with
  | Ok true => setattr model key v
  | Ok false => Ok model
  | Raise e => Raise e
  end.

(** [update]: the model is mutated in place in the source; here the updated
    model is the value the loop returns.  The commit works on the same
    object, so the model returned is that object as the commit left it. *)
Definition update (self : PostgresRepository) (model : Instance)
    (attributes : value) : M Instance :=
  kvs ← lift (items attributes);
  model ← lift (foldM update_attribute model kvs);
  _ ← session_add model;
  _ ← session_commit;
  committed model.

(** The number of commits a session has received. *)
Definition commits (s : AsyncSession) : nat :=
  length (List.filter (λ c, match c with Commit => true | _ => false end)
                      (calls s)).

(** The calls that stage a change: [add] and [delete]. *)
Definition staging_call (c : call) : bool :=
  match c with Add _ | Delete _ => true | _ => false end.

(** A caller that only creates and deletes. *)
Inductive staging_op : Type :=
  | DoCreate (attributes : value)
  | DoDelete (model : Instance).

Definition run_op (self : PostgresRepository) (s : AsyncSession)
    (op : staging_op) : AsyncSession :=
  match op with
  | DoCreate attributes => (create self attributes s).2
  | DoDelete model => (delete self model s).2
  end.

(** The projection the specification expects of a created model: the
    supplied attributes merged with the defaults the columns declare. *)
Definition merged_with_defaults (cls : ModelClass)
    (attributes : list (string * value)) : list (string * value) :=
  (λ c, (name c,
         match dict_get attributes (name c) with
         | Some v => v
         | None => default VNone (col_default c)
         end)) <$> columns cls.

(** ** The health-check endpoint *)

(** The query-parameter model [Test]. *)
Record Test : Type := {
  test1 : option string;
  test2 : option string }.

(** The incoming request, as far as the endpoint layer looks at it. *)
Record Request : Type := {
  path : string;
  raw_query : list (string * string) }.

(** The mapping a handler returns. *)
Definition Payload : Type := list (string * value).

(** The cache tags; the endpoint uses [CacheTag.GET_HEALTH_CHECK]. *)
Inductive CacheTag : Type := GET_HEALTH_CHECK.

#[global] Instance CacheTag_eq_dec : EqDecision CacheTag.
Proof. solve_decision. Defined.

(** Modelled from the spec: the cache layer [src.core.cache] ([Cache],
    [CacheTag]) is not among the sources.  The specification describes a
    decorator taking a tag, a ttl and the identifying query parameters,
    "producing a response cache keyed by tag + selected identifying
    parameters, expiring after ttl seconds". *)
Definition CacheKey : Type := CacheTag * list (option string).

(** Modelled from the spec: an entry of the response cache, the payload
    and the time it was stored, for the expiry "after ttl seconds". *)
Record CacheEntry : Type := {
  stored_at : Z;
  cached_payload : Payload }.

(** Modelled from the spec: the response cache, latest entry first. *)
Definition Cache : Type := list (CacheKey * CacheEntry).

(** Modelled from the spec: the entry stored last under a key. *)
Fixpoint cache_lookup (k : CacheKey) (c : Cache) : option CacheEntry :=
  match c with
  | [] => None
  | (k', e) :: c' => if decide (k = k') then Some e else cache_lookup k c'
  end.

(** The query parameter of the request named [n]. *)
Definition query_param (p : Test) (n : string) : option string :=
  if String.eqb n "test1" then test1 p
  else if String.eqb n "test2" then test2 p
  else None.

(** Modelled from the spec: [Cache.cached(tag, ttl, identify)], missing
    from the sources like the rest of the cache layer.  A fresh entry under
    the request's key answers the request; otherwise the handler runs and
    its payload is stored. *)
Definition cached (tag : CacheTag) (ttl : Z) (identify : list string)
    (handler : Request → Test → Payload)
    (request : Request) (params : Test) (now : Z) (c : Cache)
    : Payload * Cache :=
  let key := (tag, query_param params <$> identify) in
  match cache_lookup key c with
  | Some e =>
      if (now <? stored_at e + ttl)%Z then (cached_payload e, c)
      else
        let p := handler request params in
        (p, (key, {| stored_at := now; cached_payload := p |}) :: c)
  | None =>
      let p := handler request params in
      (p, (key, {| stored_at := now; cached_payload := p |}) :: c)
  end.

(** The HTTP response: status code and JSON body. *)
Record Response : Type := {
  status_code : Z;
  body : Payload }.

(** Modelled from the spec: the endpoint base class [src.core.HTTPEndpoint]
    is not among the sources.  The specification gives the HTTP surface of
    the route: the handler's mapping is the response body, "HTTP 200". *)
Definition respond (p : Payload) : Response :=
  {| status_code := 200; body := p |}.

Module HealthCheck.

(** The body of [HealthCheck.get]. *)
Definition get_body (_request : Request) (_query_params : Test) : Payload :=
  [("status", VStr "ok")].

(** [HealthCheck.get], under its [Cache.cached] decorator. *)
Definition get : Request → Test → Z → Cache → Payload * Cache :=
  cached GET_HEALTH_CHECK 120 ["test1"] get_body.

End HealthCheck.

(** Modelled from the spec: one GET request on the health-check route,
    served at time [now] through the cache and the endpoint layer. *)
Definition serve (c : Cache) (r : Request * Test * Z) : Response * Cache :=
  let '(request, params, now) := r in
  let '(p, c') := HealthCheck.get request params now c in
  (respond p, c').

(** The cache after a history of requests, starting empty. *)
Definition cache_after (history : list (Request * Test * Z)) : Cache :=
  foldl (λ c r, (serve c r).2) [] history.

(** ** A concrete model, for examples *)

Module Fixture.

Definition c_id : Column := {| name := "id"; col_default := None |}.
Definition c_name : Column := {| name := "name"; col_default := None |}.
Definition c_age : Column :=
  {| name := "age"; col_default := Some (VInt 18) |}.

(** An attribute of the class that instances see and that any value can
    be assigned over. *)
Definition plain (v : value) : ClassAttribute :=
  {| attr_value := v; attr_set := λ _, None; on_instance := true;
     sql_operand := true |}.

(** A schema object of the ORM: a plain attribute that the SQL expression
    functions refuse as an operand. *)
Definition schema_object (v : value) : ClassAttribute :=
  {| attr_value := v; attr_set := λ _, None; on_instance := true;
     sql_operand := false |}.

(** An attribute that refuses every assignment on an instance. *)
Definition read_only (v : value) (e : exn) : ClassAttribute :=
  {| attr_value := v; attr_set := λ _, Some e; on_instance := true;
     sql_operand := true |}.

(** An attribute the class has from its metaclass. *)
Definition of_metaclass (v : value) : ClassAttribute :=
  {| attr_value := v; attr_set := λ _, None; on_instance := false;
     sql_operand := true |}.

(** The methods every class inherits from [object]. *)
Definition object_methods : list string :=
  ["__delattr__"; "__dir__"; "__eq__"; "__format__"; "__ge__";
   "__getattribute__"; "__getstate__"; "__gt__"; "__hash__"; "__init__";
   "__init_subclass__"; "__le__"; "__lt__"; "__ne__"; "__new__";
   "__reduce__"; "__reduce_ex__"; "__repr__"; "__setattr__"; "__sizeof__";
   "__str__"; "__subclasshook__"].

(** A mapped class [User(Model)] with the table [users(id, name, age)]:
    its columns, and the other attributes of a declarative class.
    Assigning a dictionary to [__dict__] replaces the attributes of the
    instance altogether; the model takes it as refused, like any other
    value. *)
Definition User : ModelClass :=
  {| columns := [c_id; c_name; c_age];
     class_attributes :=
       [("metadata", plain (VObject "MetaData"));
        ("registry", plain (VObject "registry"));
        ("__abstract__", plain (VBool true));
        ("__table_args__", plain (VDict [("extend_existing", VBool true)]));
        ("__tablename__", plain (VStr "users"));
        ("__table__", schema_object (VObject "Table"));
        ("__mapper__", schema_object (VObject "Mapper"));
        ("_sa_class_manager", plain (VObject "ClassManager"));
        ("_sa_registry", plain (VObject "registry"));
        ("__module__", plain (VStr "models"));
        ("__doc__", plain VNone);
        ("__class__", read_only (VObject "DeclarativeMeta") TypeError);
        ("__dict__", read_only (VObject "mappingproxy") TypeError);
        ("__weakref__", read_only (VObject "getset_descriptor")
                                  AttributeError);
        ("__name__", of_metaclass (VStr "User"));
        ("__qualname__", of_metaclass (VStr "User"));
        ("__mro__", of_metaclass (VTuple [VObject "User"; VObject "Model";
                                          VObject "Base"; VObject "object"]));
        ("__bases__", of_metaclass (VTuple [VObject "Model"]));
        ("mro", of_metaclass (VObject "method"))]
       ++ ((λ n, (n, plain (VObject n))) <$> object_methods) |}.

Definition user (i : Z) (n : string) (a : Z) : Instance :=
  {| inst_class := User;
     inst_dict := <["id" := VInt i]> (<["name" := VStr n]>
                    (<["age" := VInt a]> ∅));
     inst_expired := false;
     inst_state := None |}.

Definition _join_tasks (query : Select) : Select := join query "tasks".

Definition users : PostgresRepository :=
  {| model_class := User;
     methods := <["_join_tasks" := _join_tasks]> ∅ |}.

(** A session that raises nothing of its own and whose commits leave the
    objects as they are ([expire_on_commit=False], nothing generated). *)
Definition session : AsyncSession :=
  {| table := [user 1 "ann" 30; user 2 "bob" 41; user 3 "bob" 25];
     related := λ _ _, 2;
     calls := [];
     refuses := λ _, None;
     refuses_delete := λ _, None;
     commit_error := λ _, None;
     after_commit := λ m, m |}.


(** A session whose database keeps integers in 64-bit columns, whose
    [delete] refuses every instance as not persistent, and whose commits
    fail. *)
Definition strict_session : AsyncSession :=
  {| table := table session; related := related session; calls := [];
     refuses := λ q,
       if forallb (λ c, match c with
                        | CEq (AColumn _) (VInt z) =>
                            (z <? 9223372036854775808)%Z
                        | _ => true
                        end) (whereclause q)
       then None else Some DBAPIError;
     refuses_delete := λ _, Some InvalidRequestError;
     commit_error := λ _, Some DBAPIError;
     after_commit := expire |}.

Definition request : Request := {| path := "/health"; raw_query := [] |}.

End Fixture.

(** * Properties *)

(** ** Joins *)

Lemma query_join_error (self : PostgresRepository) (join_ order_ : value)
    (e : exn) :
  _maybe_join self (select (model_class self)) join_ = Raise e →
  _query self join_ order_ = Raise e.
Proof. intros H. unfold _query. by rewrite H. Qed.

Lemma query_no_join (self : PostgresRepository) (join_ : value) :
  truthy join_ = false →
  _query self join_ VNone = Ok (select (model_class self)).
Proof. intros H. unfold _query, _maybe_join. by rewrite H. Qed.

Lemma get_all_query_error (self : PostgresRepository) (skip limit_ : Z)
    (join_ where' order_by_ : value) (e : exn) (s : AsyncSession) :
  _query self join_ VNone = Raise e →
  get_all self skip limit_ join_ where' order_by_ s = (Raise e, s).
Proof. intros H. unfold get_all. by rewrite H. Qed.

Lemma get_by_query_error (self : PostgresRepository) (field : string)
    (v join_ : value) (unique_ : bool) (e : exn) (s : AsyncSession) :
  _query self join_ VNone = Raise e →
  get_by self field v join_ unique_ s = (Raise e, s).
Proof. intros H. unfold get_by. by rewrite H. Qed.

(** C7.  A falsy [join_] argument ([None], the empty set, but also an empty
    list, tuple, string or dictionary, zero or [False]) makes [_maybe_join]
    hand the query back unchanged, without an error: the emptiness test
    comes before the set test. *)
Theorem maybe_join_falsy (self : PostgresRepository) (query : Select)
    (join_ : value) :
  truthy join_ = false → _maybe_join self query join_ = Ok query.
Proof. intros H. unfold _maybe_join. by rewrite H. Qed.

Lemma maybe_join_falsy_witness :
  truthy (VList []) = false
  ∧ isinstance_set (VList []) = false
  ∧ _maybe_join Fixture.users (select Fixture.User) (VList [])
    = Ok (select Fixture.User).
Proof.
  split; [reflexivity|]. split; [reflexivity|].
  apply (maybe_join_falsy Fixture.users (select Fixture.User) (VList [])).
  reflexivity.
Defined.

Example maybe_join_None (self : PostgresRepository) (query : Select) :
  _maybe_join self query VNone = Ok query.
Proof. reflexivity. Qed.

Example maybe_join_empty_set (self : PostgresRepository) (query : Select) :
  _maybe_join self query (VSet []) = Ok query.
Proof. reflexivity. Qed.

(** C6 does not hold for every argument that is not a set: [None] and the
    empty list are not sets, yet [_maybe_join] accepts them and [get_by]
    goes on to query the session. *)
Lemma falsy_non_set_join_accepted :
  isinstance_set (VList []) = false
  ∧ isinstance_set VNone = false
  ∧ _maybe_join Fixture.users (select Fixture.User) (VList [])
    ≠ Raise TypeError
  ∧ _maybe_join Fixture.users (select Fixture.User) VNone ≠ Raise TypeError
  ∧ (get_by Fixture.users "name" (VStr "ann") (VList []) false
       Fixture.session).1
    = Ok (Several [Fixture.user 1 "ann" 30]).
Proof. repeat split; vm_compute; congruence. Qed.

(** C6, amended.  A [join_] argument that is truthy and not a set makes
    [_maybe_join] raise [TypeError]; [get_all] and [get_by] called with it
    raise the same error before they reach the session. *)
Theorem non_set_join_type_error (self : PostgresRepository) (join_ : value) :
  truthy join_ = true →
  isinstance_set join_ = false →
  (∀ query, _maybe_join self query join_ = Raise TypeError)
  ∧ (∀ skip limit_ where' order_by_ s,
       get_all self skip limit_ join_ where' order_by_ s
       = (Raise TypeError, s))
  ∧ (∀ field v unique_ s,
       get_by self field v join_ unique_ s = (Raise TypeError, s)).
Proof.
  intros Ht Hs.
  assert (Hj : ∀ query, _maybe_join self query join_ = Raise TypeError).
  { intros query. unfold _maybe_join. by rewrite Ht, Hs. }
  split; [exact Hj|].
  split; intros.
  - apply get_all_query_error, query_join_error, Hj.
  - apply get_by_query_error, query_join_error, Hj.
Qed.

Lemma non_set_join_type_error_witness :
  truthy (VList [VStr "x"]) = true
  ∧ isinstance_set (VList [VStr "x"]) = false
  ∧ _maybe_join Fixture.users (select Fixture.User) (VList [VStr "x"])
    = Raise TypeError.
Proof.
  split; [reflexivity|]. split; [reflexivity|].
  apply (non_set_join_type_error Fixture.users (VList [VStr "x"]));
    reflexivity.
Defined.

Lemma foldM_add_join_missing (self : PostgresRepository) (names : list string)
    (x : string) (query : Select) :
  x ∈ names →
  methods self !! ("_join_" +:+ x) = None →
  foldM (_add_join_to_query self) query (VStr <$> names)
  = Raise AttributeError.
Proof.
  intros Hin Hx. revert query.
  induction names as [|y names IH]; intros query.
  - by apply elem_of_nil in Hin.
  - cbn [fmap list_fmap foldM _add_join_to_query].
    destruct (methods self !! ("_join_" +:+ y)) as [m|] eqn:Hy; [|done].
    cbn. apply elem_of_cons in Hin as [->|Hin]; [congruence|].
    by apply IH.
Qed.

Lemma foldM_add_join_defined (self : PostgresRepository) (names : list string)
    (ms : list (Select → Select)) (query : Select) :
  Forall2 (λ x m, methods self !! ("_join_" +:+ x) = Some m) names ms →
  foldM (_add_join_to_query self) query (VStr <$> names)
  = Ok (foldl (λ q m, m q) query ms).
Proof.
  intros H. revert query.
  induction H as [|x m names ms Hx _ IH]; intros query; [done|].
  cbn [fmap list_fmap foldM _add_join_to_query foldl]. rewrite Hx. cbn.
  apply IH.
Qed.

(** C8.  [join_] is a non-empty set of join names.  If one of its names
    has no [_join_<name>] method on the repository, [_maybe_join] raises
    [AttributeError]; if every name has one, the methods are applied to the
    query one after the other, in the set's iteration order.  For a single
    name, [_add_join_to_query] applies the method when it exists and raises
    [AttributeError] when it does not. *)
Theorem maybe_join_dispatch (self : PostgresRepository) (query : Select)
    (names : list string) :
  names ≠ [] →
  (∀ x, x ∈ names → methods self !! ("_join_" +:+ x) = None →
        _maybe_join self query (VSet (VStr <$> names)) = Raise AttributeError)
  ∧ (∀ ms, Forall2 (λ x m, methods self !! ("_join_" +:+ x) = Some m)
                   names ms →
           _maybe_join self query (VSet (VStr <$> names))
           = Ok (foldl (λ q m, m q) query ms))
  ∧ (∀ x m, methods self !! ("_join_" +:+ x) = Some m →
            _add_join_to_query self query (VStr x) = Ok (m query))
  ∧ (∀ x, methods self !! ("_join_" +:+ x) = None →
          _add_join_to_query self query (VStr x) = Raise AttributeError).
Proof.
  intros Hne.
  assert (Ht : truthy (VSet (VStr <$> names)) = true)
    by (destruct names; [done|reflexivity]).
  split; [|split; [|split]].
  - intros x Hin Hx. unfold _maybe_join. rewrite Ht. cbn.
    by apply foldM_add_join_missing with x.
  - intros ms Hms. unfold _maybe_join. rewrite Ht. cbn.
    by apply foldM_add_join_defined.
  - intros x m Hx. cbn. by rewrite Hx.
  - intros x Hx. cbn. by rewrite Hx.
Qed.

Lemma maybe_join_dispatch_witness :
  _maybe_join Fixture.users (select Fixture.User)
    (VSet (VStr <$> ["tasks"; "x"])) = Raise AttributeError
  ∧ _maybe_join Fixture.users (select Fixture.User)
      (VSet (VStr <$> ["tasks"]))
    = Ok (Fixture._join_tasks (select Fixture.User)).
Proof.
  split.
  - apply (maybe_join_dispatch Fixture.users (select Fixture.User)
             ["tasks"; "x"]) with "x"; [done| |reflexivity].
    repeat constructor.
  - apply (maybe_join_dispatch Fixture.users (select Fixture.User)
             ["tasks"]) with (ms := [Fixture._join_tasks]); [done|].
    repeat constructor.
Defined.

(** Run the binds of [M] whose first computation is known. *)
Ltac step_M := cbv [mbind M_bind mret M_ret lift].

(** Run the session calls at the head of a computation. *)
Ltac run_session :=
  unfold all_unique, _all, _one, delete, session_add, session_delete,
    session_commit, session_execute, session_scalars;
  step_M; cbn [fst snd].

(** ** What the session returns for the statements of the repository *)

Lemma insert_sorted_le {A : Type} (cmp : A → A → comparison) (x : A)
    (l : list A) :
  (∀ y, cmp x y ≠ Gt) → insert_sorted cmp x l = x :: l.
Proof.
  intros H. destruct l as [|y l]; [done|]. cbn.
  specialize (H y). by destruct (cmp x y).
Qed.

Lemma stable_sort_unordered {A : Type} (cmp : A → A → comparison) (l : list A) :
  (∀ x y, cmp x y ≠ Gt) → stable_sort cmp l = l.
Proof.
  intros H. unfold stable_sort. induction l as [|x l IH]; [done|].
  cbn. rewrite IH. by apply insert_sorted_le.
Qed.

Lemma scalars_filter_imap (f : Instance → bool) (g : nat → nat)
    (l : list Instance) :
  scalars (List.filter (λ r : Row, f r.2) (imap (λ i m, (g i, m)) l))
  = List.filter f l.
Proof.
  unfold scalars. revert g. induction l as [|m l IH]; intros g; [done|].
  cbn. destruct (f m); cbn; [f_equal|]; exact (IH (g ∘ S)).
Qed.

(** Without joins and ordering, a statement returns the table rows its
    filters select, in table order, cut by offset and limit. *)
Lemma fetch_plain (s : AsyncSession) (q : Select) :
  joined q = [] →
  order_by_clauses q = [] →
  scalars (fetch s q)
  = let selected :=
      List.filter (λ m, forallb (λ c, holds c m) (whereclause q)) (table s) in
    let skipped :=
      match offset_clause q with
      | Some n => drop (Z.to_nat n) selected
      | None => selected
      end in
    match limit_clause q with
    | Some n => take (Z.to_nat n) skipped
    | None => skipped
    end.
Proof.
  intros Hj Ho. unfold fetch. rewrite Hj, Ho. cbn [foldl row_compare].
  rewrite stable_sort_unordered by done.
  assert (Hsel :
    (List.filter (λ r : Row, forallb (λ c, holds c r.2) (whereclause q))
                 (imap (λ i m, (i, m)) (table s))).*2
    = List.filter (λ m, forallb (λ c, holds c m) (whereclause q)) (table s))
    by exact (scalars_filter_imap _ id _).
  unfold scalars. cbn zeta.
  destruct (limit_clause q), (offset_clause q);
    rewrite ?fmap_take, ?fmap_drop; by rewrite Hsel.
Qed.

Lemma filter_single_cond (c : cond) (l : list Instance) :
  List.filter (λ m, forallb (λ c', holds c' m) [c]) l
  = List.filter (holds c) l.
Proof.
  apply List.filter_ext. intros m. cbn. by rewrite andb_true_r.
Qed.

(** ** Statements the database rejects *)

Lemma statement_error_logged (s : AsyncSession) (c : call) (q : Select) :
  statement_error (logged s c) q = statement_error s q.
Proof. reflexivity. Qed.

(** A statement that runs has a non-negative offset and limit. *)
Lemma statement_runs_bounds (s : AsyncSession) (q : Select) (skip limit_ : Z) :
  offset_clause q = Some skip →
  limit_clause q = Some limit_ →
  statement_error s q = None →
  (0 ≤ skip)%Z ∧ (0 ≤ limit_)%Z.
Proof.
  unfold statement_error, well_formed. intros -> ->. cbn.
  destruct (0 <=? skip)%Z eqn:E1; [|done].
  destruct (0 <=? limit_)%Z eqn:E2; [|done]. lia.
Qed.

Lemma statement_error_negative (s : AsyncSession) (q : Select)
    (skip limit_ : Z) :
  offset_clause q = Some skip →
  limit_clause q = Some limit_ →
  (skip < 0 ∨ limit_ < 0)%Z →
  statement_error s q = Some DBAPIError.
Proof.
  unfold statement_error, well_formed. intros -> -> H. cbn.
  destruct (0 <=? skip)%Z eqn:E1; [|done].
  destruct (0 <=? limit_)%Z eqn:E2; [|done]. lia.
Qed.


(** ** get_by *)

Lemma get_by_one_of_matching (self : PostgresRepository) (field : string)
    (v : value) (a : class_attr) (s : AsyncSession) :
  getattr_class (model_class self) field = Ok a →
  get_by self field v VNone true s
  = (match statement_error s (where_ (select (model_class self)) (CEq a v)) with
     | Some e => Raise e
     | None =>
         m ← one (List.filter (holds (CEq a v)) (table s)); Ok (Single m)
     end,
     logged s (Scalars (where_ (select (model_class self)) (CEq a v)))).
Proof.
  intros Ha. unfold get_by, _get_by. rewrite query_no_join by done.
  rewrite Ha. cbn. step_M. unfold _one, session_scalars. step_M.
  destruct (statement_error s _); [done|].
  rewrite fetch_plain by done. cbn -[List.filter forallb].
  rewrite filter_single_cond.
  by destruct (one _).
Qed.

(** C1 does not hold for every [join_] argument: with one that is not
    [None] (here the empty set, then a set naming a defined join),
    [unique=True] is not honoured.  No row has the name [zed], and two rows
    have the name [bob]; neither call raises. *)
Lemma joined_get_by_ignores_unique :
  List.filter (holds (CEq (AColumn Fixture.c_name) (VStr "zed")))
              (table Fixture.session) = []
  ∧ (get_by Fixture.users "name" (VStr "zed") (VSet []) true
       Fixture.session).1 = Ok (Several [])
  ∧ (get_by Fixture.users "name" (VStr "zed") (VSet []) true
       Fixture.session).1 ≠ Raise NoResultFound
  ∧ length (List.filter (holds (CEq (AColumn Fixture.c_name) (VStr "bob")))
                        (table Fixture.session)) = 2
  ∧ (get_by Fixture.users "name" (VStr "bob") (VSet [VStr "tasks"]) true
       Fixture.session).1
    = Ok (Several [Fixture.user 2 "bob" 41; Fixture.user 3 "bob" 25]).
Proof. repeat split; vm_compute; congruence. Qed.

Lemma get_by_joined (self : PostgresRepository) (field : string)
    (v join_ : value) (unique_ : bool) (a : class_attr) (q : Select)
    (s : AsyncSession) :
  getattr_class (model_class self) field = Ok a →
  is_None join_ = false →
  _query self join_ VNone = Ok q →
  get_by self field v join_ unique_ s
  = (match statement_error s (where_ q (CEq a v)) with
     | Some e => Raise e
     | None => Ok (Several (scalars (unique (fetch s (where_ q (CEq a v))))))
     end,
     logged s (Execute (where_ q (CEq a v)))).
Proof.
  intros Ha Hj Hq. unfold get_by, _get_by. rewrite Hq, Ha, Hj. cbn.
  step_M. run_session. by destruct (statement_error s _).
Qed.

(** C1, amended.  [get_by(field, value, unique=True)] without a [join_]
    argument ([join_] is [None]), on a field of the model, sends one
    statement to the session.  When the session runs it: if no row of the
    table matches the equality filter the call raises [NoResultFound]; if
    exactly one row matches it returns that record; if more than one row
    matches it raises [MultipleResultsFound].  When the session raises
    instead (the value cannot be bound, the database rejects it), that
    exception is the outcome.  With a [join_] argument that is not [None],
    [unique] is not consulted: the call returns the list of the distinct
    entities the joined statement yields, or the session's exception. *)
Theorem get_by_unique (self : PostgresRepository) (field : string)
    (v : value) (a : class_attr) (s : AsyncSession) :
  getattr_class (model_class self) field = Ok a →
  let q := where_ (select (model_class self)) (CEq a v) in
  let matching := List.filter (holds (CEq a v)) (table s) in
  let s' := logged s (Scalars q) in
  (statement_error s q = None →
     (matching = [] →
      get_by self field v VNone true s = (Raise NoResultFound, s'))
     ∧ (∀ m, matching = [m] →
             get_by self field v VNone true s = (Ok (Single m), s'))
     ∧ (∀ m1 m2 ms, matching = m1 :: m2 :: ms →
             get_by self field v VNone true s
             = (Raise MultipleResultsFound, s')))
  ∧ (∀ e, statement_error s q = Some e →
          get_by self field v VNone true s = (Raise e, s'))
  ∧ (∀ join_ unique_ q',
       is_None join_ = false →
       _query self join_ VNone = Ok q' →
       get_by self field v join_ unique_ s
       = (match statement_error s (where_ q' (CEq a v)) with
          | Some e => Raise e
          | None =>
              Ok (Several (scalars (unique (fetch s (where_ q' (CEq a v))))))
          end,
          logged s (Execute (where_ q' (CEq a v))))).
Proof.
  intros Ha q matching s'. subst q matching s'.
  rewrite (get_by_one_of_matching self field v a s Ha).
  split; [|split].
  - intros ->. split; [|split].
    + by intros ->.
    + by intros m ->.
    + by intros m1 m2 ms ->.
  - by intros e ->.
  - intros join_ unique_ q'. by apply get_by_joined.
Qed.

Lemma get_by_unique_witness :
  get_by Fixture.users "name" (VStr "ann") VNone true Fixture.session
  = (Ok (Single (Fixture.user 1 "ann" 30)),
     logged Fixture.session
       (Scalars (where_ (select Fixture.User)
                        (CEq (AColumn Fixture.c_name) (VStr "ann")))))
  ∧ get_by Fixture.users "name" (VStr "zed") VNone true Fixture.session
    = (Raise NoResultFound,
       logged Fixture.session
         (Scalars (where_ (select Fixture.User)
                          (CEq (AColumn Fixture.c_name) (VStr "zed")))))
  ∧ get_by Fixture.users "name" (VStr "bob") VNone true Fixture.session
    = (Raise MultipleResultsFound,
       logged Fixture.session
         (Scalars (where_ (select Fixture.User)
                          (CEq (AColumn Fixture.c_name) (VStr "bob")))))
  ∧ get_by Fixture.users "age" (VInt 9223372036854775808) VNone true
      Fixture.strict_session
    = (Raise DBAPIError,
       logged Fixture.strict_session
         (Scalars (where_ (select Fixture.User)
                          (CEq (AColumn Fixture.c_age)
                               (VInt 9223372036854775808)))))
  ∧ get_by Fixture.users "age" (VDict [("$gt", VInt 25)]) VNone true
      Fixture.session
    = (Raise DBAPIError,
       logged Fixture.session
         (Scalars (where_ (select Fixture.User)
                          (CEq (AColumn Fixture.c_age)
                               (VDict [("$gt", VInt 25)]))))).
Proof.
  split; [|split; [|split; [|split]]].
  - destruct (get_by_unique Fixture.users "name" (VStr "ann")
                (AColumn Fixture.c_name) Fixture.session eq_refl)
      as [H _].
    destruct (H eq_refl) as (_ & H1 & _). by apply H1.
  - destruct (get_by_unique Fixture.users "name" (VStr "zed")
                (AColumn Fixture.c_name) Fixture.session eq_refl)
      as [H _].
    destruct (H eq_refl) as (H0 & _ & _). by apply H0.
  - destruct (get_by_unique Fixture.users "name" (VStr "bob")
                (AColumn Fixture.c_name) Fixture.session eq_refl)
      as [H _].
    destruct (H eq_refl) as (_ & _ & H2).
    by apply (H2 (Fixture.user 2 "bob" 41) (Fixture.user 3 "bob" 25) []).
  - destruct (get_by_unique Fixture.users "age" (VInt 9223372036854775808)
                (AColumn Fixture.c_age) Fixture.strict_session eq_refl)
      as (_ & H & _).
    by apply H.
  - destruct (get_by_unique Fixture.users "age" (VDict [("$gt", VInt 25)])
                (AColumn Fixture.c_age) Fixture.session eq_refl)
      as (_ & H & _).
    by apply H.
Defined.

(** ** get_all *)

Lemma dict_contains_Some {A : Type} (d : list (string * A)) (k : string)
    (x : A) :
  dict_get d k = Some x → dict_contains d k = true.
Proof.
  intros H. unfold dict_contains. rewrite H. by apply bool_decide_eq_true.
Qed.

Lemma dict_contains_None {A : Type} (d : list (string * A)) (k : string) :
  dict_get d k = None → dict_contains d k = false.
Proof.
  intros H. unfold dict_contains. rewrite H.
  apply bool_decide_eq_false. by intros [? ?].
Qed.


(** [get_all] without joins and ordering sends one statement; when the
    session runs it, the result is the rows that satisfy every entry of
    [where], cut by [skip] and [limit]. *)
Lemma get_all_where (self : PostgresRepository) (skip limit_ : Z)
    (kvs : list (string * value)) (conditions : list cond)
    (s : AsyncSession) :
  mapM (where_condition self) kvs = Ok conditions →
  get_all self skip limit_ VNone (VDict kvs) VNone s
  = (match statement_error s
             (where_ (limit (offset (select (model_class self)) skip) limit_)
                     (CAnd conditions)) with
     | Some e => Raise e
     | None =>
         Ok (take (Z.to_nat limit_)
               (drop (Z.to_nat skip)
                  (List.filter (λ m, forallb (λ c, holds c m) conditions)
                               (table s))))
     end,
     logged s (Scalars (where_ (limit (offset (select (model_class self)) skip)
                                      limit_)
                               (CAnd conditions)))).
Proof.
  intros Hc. unfold get_all. rewrite query_no_join by done.
  cbn -[mapM]. rewrite Hc. cbn. step_M.
  unfold _all, session_scalars.
  destruct (statement_error s _); [done|].
  rewrite fetch_plain by done.
  cbn -[List.filter forallb]. rewrite filter_single_cond.
  reflexivity.
Qed.



Example get_all_range_inclusive :
  (get_all Fixture.users 0 100 VNone
     (VDict [("age", VDict [("$gt", VInt 25); ("$lt", VInt 30)])]) VNone
     Fixture.session).1
  = Ok [Fixture.user 1 "ann" 30; Fixture.user 3 "bob" 25].
Proof. vm_compute. reflexivity. Qed.

Example get_all_negative_limit :
  (get_all Fixture.users 0 (-1) VNone VNone VNone Fixture.session).1
  = Raise DBAPIError.
Proof. vm_compute. reflexivity. Qed.

(** ** Attribute access *)

Lemma find_column_name (cs : list Column) (k : string) (c : Column) :
  find_column cs k = Some c → name c = k.
Proof.
  induction cs as [|c' cs IH]; [done|]. cbn.
  destruct (String.eqb (name c') k) eqn:E; [|done].
  intros [= <-]. by apply String.eqb_eq.
Qed.

Lemma getattr_class_column (cls : ModelClass) (k : string) (c : Column) :
  find_column (columns cls) k = Some c → getattr_class cls k = Ok (AColumn c).
Proof. intros H. unfold getattr_class. by rewrite H. Qed.

Lemma find_column_elem (cs : list Column) (c : Column) :
  c ∈ cs → is_Some (find_column cs (name c)).
Proof.
  induction 1 as [c cs|c c' cs _ IH]; cbn.
  - by rewrite String.eqb_refl.
  - by destruct (String.eqb (name c') (name c)).
Qed.

(** The only exception of attribute lookup on the class. *)
Lemma getattr_class_unknown (cls : ModelClass) (k : string) :
  hasattr_class cls k = false → getattr_class cls k = Raise AttributeError.
Proof.
  unfold hasattr_class, getattr_class.
  destruct (find_column (columns cls) k); [done|].
  destruct (dict_get (class_attributes cls) k); [done|].
  by destruct (String.eqb k "as_dict").
Qed.

(** An instance that is not expired reads every column. *)
Lemma read_column_live (self : Instance) (k : string) :
  inst_expired self = false → read_column self k = Ok (column_value self k).
Proof.
  intros H. unfold read_column, column_value. rewrite H.
  by destruct (inst_dict self !! k).
Qed.

Lemma loaded_live (self : Instance) :
  inst_expired self = false → loaded self = true.
Proof.
  intros H. unfold loaded. apply forallb_forall. intros c _.
  by rewrite read_column_live.
Qed.

(** [as_dict] reads each column with [getattr], as the comprehension in
    the source does. *)
Lemma as_dict_getattr (self : Instance) :
  inst_expired self = false →
  Forall2 (λ c kv, kv.1 = name c ∧ getattr self (name c) = Ok kv.2)
          (columns (inst_class self)) (as_dict self).
Proof.
  intros Hlive.
  unfold as_dict. apply Forall2_fmap_r, Forall_Forall2_diag, Forall_forall.
  intros c Hc. split; [done|]. cbn.
  destruct (find_column_elem _ _ Hc) as [c' Hc'].
  unfold getattr. rewrite (getattr_class_column _ _ _ Hc').
  by apply read_column_live.
Qed.

Lemma dict_get_None {A : Type} (d : list (string * A)) (k : string) :
  k ∉ d.*1 → dict_get d k = None.
Proof.
  induction d as [|[k' v] d IH]; [done|]. cbn.
  intros H. apply not_elem_of_cons in H as [Hne Hd].
  destruct (String.eqb k' k) eqn:E; [|by apply IH].
  apply String.eqb_eq in E. congruence.
Qed.

(** ** create *)

Lemma construct_unknown (cls : ModelClass) (kw : list (string * value))
    (self : Instance) :
  inst_class self = cls →
  (∃ k, k ∈ kw.*1 ∧ hasattr_class cls k = false) →
  ∃ e, foldM (assign_keyword cls) self kw = Raise e
       ∧ (e = TypeError
          ∨ ∃ k v a, (k, v) ∈ kw ∧ getattr_class cls k = Ok a
                     ∧ assignment_error a v = Some e)
       ∧ (Forall (assignable cls) kw → e = TypeError).
Proof.
  revert self. induction kw as [|[k0 v0] kw IH]; intros self Hcls (k & Hk & Hf).
  { by apply elem_of_nil in Hk. }
  cbn [foldM assign_keyword]. unfold hasattr_class in *. unfold setattr.
  rewrite Hcls.
  destruct (getattr_class cls k0) as [a|e0] eqn:Hk0; cbn [is_Ok].
  - destruct (assignment_error a v0) as [e|] eqn:Hset.
    + exists e. split; [done|]. split.
      * right. exists k0, v0, a. split; [apply list_elem_of_here|done].
      * intros Hall. apply Forall_cons in Hall as [H0 _].
        specialize (H0 a Hk0). cbn in H0. congruence.
    + cbn. destruct (IH (stored self k0 v0) Hcls) as (e & He & Hwhy & Hall).
      * exists k. split; [|done]. cbn in Hk.
        apply elem_of_cons in Hk as [->|Hk]; [by rewrite Hk0 in Hf|done].
      * exists e. split; [done|]. split.
        -- destruct Hwhy as [->|(k1 & v1 & a1 & Hin & H1)]; [by left|right].
           exists k1, v1, a1. split; [by apply list_elem_of_further|done].
        -- intros H. apply Hall. by apply Forall_cons in H as [_ ?].
  - exists TypeError. split; [done|]. split; [by left|done].
Qed.

Lemma construct_valid (cls : ModelClass) (kw : list (string * value))
    (self : Instance) :
  inst_class self = cls →
  Forall (λ k, is_Some (find_column (columns cls) k)) kw.*1 →
  foldM (assign_keyword cls) self kw
  = Ok {| inst_class := cls;
          inst_dict := foldl (λ d kv, <[kv.1 := kv.2]> d) (inst_dict self) kw;
          inst_expired := inst_expired self;
          inst_state := inst_state self |}.
Proof.
  revert self. induction kw as [|[k0 v0] kw IH]; intros self Hcls Hall.
  { cbn. by destruct self; cbn in *; subst. }
  cbn in Hall. apply Forall_cons in Hall as [[c Hc] Hall].
  cbn [foldM assign_keyword]. unfold hasattr_class, setattr. rewrite Hcls.
  rewrite (getattr_class_column _ _ _ Hc). cbn.
  by rewrite IH.
Qed.

Lemma foldl_insert_lookup (kw : list (string * value))
    (d : gmap string value) (k : string) :
  NoDup kw.*1 →
  foldl (λ d kv, <[kv.1 := kv.2]> d) d kw !! k
  = match dict_get kw k with Some v => Some v | None => d !! k end.
Proof.
  revert d. induction kw as [|[k0 v0] kw IH]; intros d Hnd; [done|].
  cbn in Hnd. apply NoDup_cons in Hnd as [Hk0 Hnd].
  cbn. rewrite IH by done.
  destruct (String.eqb k0 k) eqn:E.
  - apply String.eqb_eq in E. subst k0.
    by rewrite (dict_get_None _ _ Hk0), lookup_insert_eq.
  - apply String.eqb_neq in E. by rewrite lookup_insert_ne.
Qed.

(** The constructor never touches the ORM's state object. *)
Lemma construct_state (cls : ModelClass) (kw : list (string * value))
    (self model : Instance) :
  inst_class self = cls →
  foldM (assign_keyword cls) self kw = Ok model →
  inst_state model = inst_state self.
Proof.
  revert self. induction kw as [|[k0 v0] kw IH]; intros self Hcls.
  { cbn. by intros [= <-]. }
  cbn [foldM assign_keyword]. unfold hasattr_class, setattr. rewrite Hcls.
  destruct (getattr_class cls k0) as [a|]; cbn [is_Ok]; [|done].
  destruct (assignment_error a v0); [done|]. cbn.
  intros H. by rewrite (IH (stored self k0 v0) Hcls H).
Qed.

Lemma create_dict (self : PostgresRepository) (kw : list (string * value))
    (s : AsyncSession) :
  create self (VDict kw) s
  = match construct (model_class self) kw with
    | Ok model => (Ok model, logged s (Add model))
    | Raise e => (Raise e, s)
    end.
Proof.
  unfold create. cbn. step_M.
  destruct (construct _ _) as [model|e] eqn:Hc; [|done].
  unfold session_add, instance_state.
  by rewrite (construct_state (model_class self) kw
                {| inst_class := model_class self; inst_dict := ∅;
                   inst_expired := false; inst_state := None |}
                model eq_refl Hc).
Qed.

Lemma create_None (self : PostgresRepository) (s : AsyncSession) :
  create self VNone s = create self (VDict []) s.
Proof. reflexivity. Qed.

(** C2 does not hold as stated.  An attribute name the class does not have
    is refused by the constructor with [TypeError], which is not an
    [AttributeError]; and a name that is not a declared field but is an
    attribute of the class, as [metadata] is of every declarative class,
    is not refused at all: the model is created and staged. *)
Lemma unknown_attribute_raises_type_error :
  find_column (columns Fixture.User) "bogus" = None
  ∧ create Fixture.users (VDict [("bogus", VInt 1)]) Fixture.session
    = (Raise TypeError, Fixture.session)
  ∧ (create Fixture.users (VDict [("bogus", VInt 1)]) Fixture.session).1
    ≠ Raise AttributeError
  ∧ find_column (columns Fixture.User) "metadata" = None
  ∧ ∃ model,
      create Fixture.users (VDict [("metadata", VInt 1)]) Fixture.session
      = (Ok model, logged Fixture.session (Add model)).
Proof.
  split; [reflexivity|]. split; [vm_compute; reflexivity|].
  split; [vm_compute; congruence|]. split; [reflexivity|].
  rewrite create_dict. by eexists.
Qed.

(** C2, amended.  If the attributes mapping has a key that names no
    attribute of the model class, [create] fails and the session is left
    as it was: nothing is staged.  The error is the constructor's
    [TypeError], unless an earlier key names an attribute of the class
    that refuses the assignment (the read-only property [as_dict], with
    [AttributeError]); then it is the error of that assignment. *)
Theorem create_unknown_attribute (self : PostgresRepository)
    (attributes : list (string * value)) (s : AsyncSession) :
  (∃ k, k ∈ attributes.*1 ∧ hasattr_class (model_class self) k = false) →
  ∃ e, create self (VDict attributes) s = (Raise e, s)
       ∧ (e = TypeError
          ∨ ∃ k v a, (k, v) ∈ attributes
                     ∧ getattr_class (model_class self) k = Ok a
                     ∧ assignment_error a v = Some e)
       ∧ (Forall (assignable (model_class self)) attributes → e = TypeError).
Proof.
  intros H. rewrite create_dict. unfold construct.
  destruct (construct_unknown (model_class self) attributes
              {| inst_class := model_class self; inst_dict := ∅;
                 inst_expired := false; inst_state := None |}
              eq_refl H) as (e & -> & He).
  by exists e.
Qed.

Lemma create_unknown_attribute_witness :
  create Fixture.users
    (VDict [("name", VStr "x"); ("metadata", VInt 0); ("bogus", VInt 1)])
    Fixture.session = (Raise TypeError, Fixture.session).
Proof.
  destruct (create_unknown_attribute Fixture.users
              [("name", VStr "x"); ("metadata", VInt 0); ("bogus", VInt 1)]
              Fixture.session) as (e & Hrun & _ & He).
  - exists "bogus". split; [|reflexivity].
    cbn. repeat constructor.
  - rewrite Hrun, He; [reflexivity|].
    repeat constructor; intros a [= <-]; reflexivity.
Defined.

Example create_property_keyword :
  create Fixture.users (VDict [("as_dict", VInt 1); ("bogus", VInt 1)])
    Fixture.session
  = (Raise AttributeError, Fixture.session).
Proof. vm_compute. reflexivity. Qed.

(** C9 does not hold for the declared defaults: [create] does not apply
    them.  The column [age] declares the default 18; the model created
    without an [age] reads [None] there. *)
Lemma column_defaults_not_applied :
  col_default Fixture.c_age = Some (VInt 18)
  ∧ match (create Fixture.users (VDict [("name", VStr "x")])
             Fixture.session).1 with
    | Ok model =>
        as_dict model
        = [("id", VNone); ("name", VStr "x"); ("age", VNone)]
        ∧ as_dict model
          ≠ merged_with_defaults Fixture.User [("name", VStr "x")]
    | Raise _ => False
    end.
Proof. split; [reflexivity|]. vm_compute. split; [reflexivity|congruence]. Qed.

(** C9, amended.  For an attributes mapping whose keys are declared fields,
    [create] returns a model, staged in the session, whose [as_dict]
    projection lists every declared column name with its current value, in
    table-column order: the supplied value where one was supplied, and
    [None] for every other column (declared defaults are not applied by
    [create]). *)
Theorem create_as_dict (self : PostgresRepository)
    (attributes : list (string * value)) (s : AsyncSession) :
  NoDup attributes.*1 →
  Forall (λ k, is_Some (find_column (columns (model_class self)) k))
         attributes.*1 →
  ∃ model,
    create self (VDict attributes) s = (Ok model, logged s (Add model))
    ∧ inst_class model = model_class self
    ∧ as_dict model
      = (λ c, (name c, default VNone (dict_get attributes (name c))))
        <$> columns (model_class self)
    ∧ Forall2 (λ c kv, kv.1 = name c ∧ getattr model (name c) = Ok kv.2)
              (columns (model_class self)) (as_dict model).
Proof.
  intros Hnd Hvalid. rewrite create_dict. unfold construct.
  rewrite construct_valid by done. eexists. split; [reflexivity|].
  split; [reflexivity|]. split.
  - unfold as_dict, column_value. cbn. apply list_fmap_ext.
    intros _ c _. rewrite foldl_insert_lookup by done.
    rewrite lookup_empty. by destruct (dict_get attributes (name c)).
  - by apply (as_dict_getattr {| inst_class := model_class self |}).
Qed.

Lemma create_as_dict_witness :
  ∃ model,
    create Fixture.users (VDict [("name", VStr "x"); ("id", VInt 7)])
      Fixture.session = (Ok model, logged Fixture.session (Add model))
    ∧ inst_class model = Fixture.User
    ∧ as_dict model = [("id", VInt 7); ("name", VStr "x"); ("age", VNone)].
Proof.
  destruct (create_as_dict Fixture.users [("name", VStr "x"); ("id", VInt 7)]
              Fixture.session) as (model & H1 & H2 & H3 & _).
  - by apply (bool_decide_unpack _).
  - cbn. repeat constructor; by eexists.
  - exists model. split; [exact H1|]. split; [exact H2|exact H3].
Defined.

(** ** update *)

(** On an instance that is not expired, [hasattr] does not raise: the
    attributes of the class that instances see are found, and so is the
    ORM's state object; any other name is found when the instance
    dictionary has it. *)
Lemma hasattr_live (model : Instance) (k : string) :
  inst_expired model = false →
  hasattr model k
  = Ok (visible (inst_class model) k
        || negb (hasattr_class (inst_class model) k) && String.eqb k STATE_ATTR
        || bool_decide (is_Some (inst_dict model !! k))).
Proof.
  intros Hlive. unfold hasattr, getattr, hasattr_class, visible.
  assert (Hd : match match inst_dict model !! k with
                     | Some v => Ok v
                     | None => Raise AttributeError
                     end with
               | Ok _ => Ok true
               | Raise AttributeError => Ok false
               | Raise e => Raise e
               end = Ok (bool_decide (is_Some (inst_dict model !! k)))).
  { destruct (inst_dict model !! k) as [v|].
    - by rewrite bool_decide_eq_true_2.
    - rewrite bool_decide_eq_false_2; [done|]. by intros [? ?]. }
  destruct (getattr_class (inst_class model) k) as [[c| |o]|e];
    cbn [is_Ok orb andb negb].
  - by rewrite read_column_live.
  - by rewrite loaded_live.
  - by destruct (on_instance o).
  - by destruct (String.eqb k STATE_ATTR).
Qed.

Lemma hasattr_stored (model : Instance) (k k' : string) (v : value) :
  inst_expired model = false →
  hasattr model k = Ok true →
  hasattr (stored model k v) k' = hasattr model k'.
Proof.
  intros Hlive Hk. rewrite !hasattr_live in * by done.
  cbn [stored inst_class inst_dict]. f_equal.
  destruct (decide (k = k')) as [<-|Hne].
  - rewrite lookup_insert_eq. injection Hk as ->.
    rewrite bool_decide_eq_true_2 by done. by rewrite orb_true_r.
  - by rewrite lookup_insert_ne.
Qed.

Lemma update_attribute_settable (model : Instance) (k : string) (v : value) :
  inst_expired model = false →
  assignable (inst_class model) (k, v) →
  k ≠ STATE_ATTR →
  ∃ b, hasattr model k = Ok b
       ∧ update_attribute model (k, v)
         = Ok (if b then stored model k v else model).
Proof.
  intros Hlive Hset Hk. unfold update_attribute.
  rewrite hasattr_live by done. eexists. split; [reflexivity|].
  apply String.eqb_neq in Hk. rewrite Hk, andb_false_r, orb_false_r.
  unfold setattr. unfold assignable in Hset. cbn in Hset.
  destruct (getattr_class (inst_class model) k) as [a|e].
  - rewrite (Hset a eq_refl). by destruct (_ || _).
  - rewrite Hk. by destruct (_ || _).
Qed.

Lemma update_loop (kvs : list (string * value)) (model : Instance) :
  inst_expired model = false →
  STATE_ATTR ∉ kvs.*1 →
  Forall (assignable (inst_class model)) kvs →
  ∃ model',
    foldM update_attribute model kvs = Ok model'
    ∧ inst_class model' = inst_class model
    ∧ inst_expired model' = false
    ∧ inst_state model' = inst_state model
    ∧ (∀ k, hasattr model' k = hasattr model k)
    ∧ (∀ k, hasattr model k = Ok false ∨ k ∉ kvs.*1 →
            inst_dict model' !! k = inst_dict model !! k)
    ∧ (NoDup kvs.*1 →
       ∀ k v, (k, v) ∈ kvs → hasattr model k = Ok true →
              inst_dict model' !! k = Some v).
Proof.
  revert model. induction kvs as [|[k0 v0] kvs IH]; intros model Hlive Hst Hall.
  { exists model. repeat split; try done. intros _ k v Hin.
    by apply elem_of_nil in Hin. }
  cbn in Hst. apply not_elem_of_cons in Hst as [Hk0 Hst].
  apply Forall_cons in Hall as [Hset0 Hall].
  destruct (update_attribute_settable model k0 v0 Hlive Hset0)
    as (b & Hh & Hstep); [done|].
  cbn [foldM]. rewrite Hstep. cbn [mbind result_bind].
  destruct b.
  - destruct (IH (stored model k0 v0) Hlive Hst Hall)
      as (model' & Hrun & Hcls & Hlive' & Hstate & Hhas & Hframe & Hsets).
    exists model'. split; [done|]. split; [done|]. split; [done|].
    split; [done|].
    assert (Hh1 : ∀ k, hasattr (stored model k0 v0) k = hasattr model k)
      by (intros k; by apply hasattr_stored).
    split; [intros k; by rewrite Hhas|]. split.
    + intros k Hk. rewrite Hframe.
      * cbn. apply lookup_insert_ne. intros <-.
        destruct Hk as [Hk|Hk]; [congruence|].
        apply Hk. cbn. apply list_elem_of_here.
      * destruct Hk as [Hk|Hk]; [left; by rewrite Hh1|right].
        cbn in Hk. by apply not_elem_of_cons in Hk as [_ ?].
    + intros Hnd k v Hin Hk. cbn in Hnd. apply NoDup_cons in Hnd as [Hk0' Hnd].
      apply elem_of_cons in Hin as [[= -> ->]|Hin].
      * rewrite Hframe by (by right). cbn. apply lookup_insert_eq.
      * apply (Hsets Hnd k v Hin). by rewrite Hh1.
  - destruct (IH model Hlive Hst Hall)
      as (model' & Hrun & Hcls & Hlive' & Hstate & Hhas & Hframe & Hsets).
    exists model'. split; [done|]. split; [done|]. split; [done|].
    split; [done|]. split; [done|]. split.
    + intros k Hk. apply Hframe.
      destruct Hk as [Hk|Hk]; [by left|right].
      cbn in Hk. by apply not_elem_of_cons in Hk as [_ ?].
    + intros Hnd k v Hin Hk. cbn in Hnd. apply NoDup_cons in Hnd as [_ Hnd].
      apply elem_of_cons in Hin as [[= -> ->]|Hin]; [congruence|].
      by apply (Hsets Hnd k v).
Qed.

(** What [update] sends to the session, by the outcome of its loop. *)
Lemma update_dict (self : PostgresRepository) (model : Instance)
    (kvs : list (string * value)) (s : AsyncSession) :
  update self model (VDict kvs) s
  = match foldM update_attribute model kvs with
    | Ok model' =>
        match inst_state model' with
        | Some _ => (Raise AttributeError, logged s (Add model'))
        | None =>
            (match commit_error s (calls s ++ [Add model']) with
             | Some e => Raise e
             | None => Ok (after_commit s model')
             end, logged (logged s (Add model')) Commit)
        end
    | Raise e => (Raise e, s)
    end.
Proof.
  unfold update. cbn. step_M.
  destruct (foldM _ _ _) as [model'|]; [|done].
  unfold session_add, session_commit, committed, instance_state.
  destruct (inst_state model'); [done|]. cbn.
  by destruct (commit_error s _).
Qed.




(** ** Staging and committing *)

Lemma bind_lift {A B : Type} (r : result A) (f : A → M B) (s : AsyncSession) :
  (lift r ≫= f) s
  = match r with Ok a => f a s | Raise e => (Raise e, s) end.
Proof. by destruct r. Qed.

Lemma commits_logged (s : AsyncSession) (c : call) :
  commits (logged s c)
  = commits s + match c with Commit => 1 | _ => 0 end.
Proof.
  unfold commits, logged. cbn. rewrite List.filter_app, length_app.
  by destruct c.
Qed.

Lemma create_stages (self : PostgresRepository) (attributes : value)
    (s : AsyncSession) :
  match (create self attributes s).1 with
  | Ok model => (create self attributes s).2 = logged s (Add model)
  | Raise _ => (create self attributes s).2 = s
  end.
Proof.
  destruct (keywords (if is_None attributes then VDict [] else attributes))
    as [kw|e] eqn:Hkw.
  - assert (create self attributes s = create self (VDict kw) s) as ->.
    { unfold create. by rewrite Hkw. }
    rewrite create_dict. by destruct (construct _ _).
  - unfold create. rewrite bind_lift, Hkw. done.
Qed.

Lemma create_commits (self : PostgresRepository) (attributes : value)
    (s : AsyncSession) :
  commits (create self attributes s).2 = commits s.
Proof.
  pose proof (create_stages self attributes s) as H.
  destruct (create self attributes s).1; rewrite H; [|done].
  rewrite commits_logged. lia.
Qed.

(** A query fails before it reaches the session, or sends it one
    statement, with [scalars] when [join_] is [None] and with [execute]
    otherwise; the session's exception for the statement, if any, is the
    outcome.  The statement of [get_all] carries [skip] and [limit]. *)
Lemma get_all_run (self : PostgresRepository) (skip limit_ : Z)
    (join_ where' order_by_ : value) (s : AsyncSession) :
  (∃ e, get_all self skip limit_ join_ where' order_by_ s = (Raise e, s))
  ∨ ∃ q, offset_clause q = Some skip ∧ limit_clause q = Some limit_
         ∧ get_all self skip limit_ join_ where' order_by_ s
           = (match statement_error s q with
              | Some e => Raise e
              | None =>
                  Ok (scalars (if is_None join_ then fetch s q
                               else unique (fetch s q)))
              end,
              logged s (if is_None join_ then Scalars q else Execute q)).
Proof.
  unfold get_all. rewrite bind_lift.
  destruct (_query self join_ VNone) as [q0|e]; [|left; by eexists].
  rewrite bind_lift.
  set (q1 := limit (offset q0 skip) limit_).
  assert (H1 : offset_clause q1 = Some skip ∧ limit_clause q1 = Some limit_)
    by done.
  clearbody q1.
  match goal with |- context [match ?r with Ok _ => _ | Raise _ => _ end] =>
    assert (H2 : (∃ e, r = Raise e)
                 ∨ ∃ q2, r = Ok q2 ∧ offset_clause q2 = Some skip
                         ∧ limit_clause q2 = Some limit_);
    [|destruct H2 as [[e ->]|(q2 & -> & H2)]; [left; by eexists|]] end.
  { destruct (negb (is_None where')); [|right; by eexists].
    destruct (items where') as [kvs|e]; [|left; by eexists]. cbn.
    destruct (mapM (where_condition self) kvs) as [cs|e]; [|left; by eexists].
    right. by eexists. }
  rewrite bind_lift.
  match goal with |- context [match ?r with Ok _ => _ | Raise _ => _ end] =>
    assert (H3 : (∃ e, r = Raise e)
                 ∨ ∃ q3, r = Ok q3 ∧ offset_clause q3 = Some skip
                         ∧ limit_clause q3 = Some limit_);
    [|destruct H3 as [[e ->]|(q3 & -> & H3)]; [left; by eexists|]] end.
  { destruct (negb (is_None order_by_)); [|right; by eexists].
    destruct (unpack2 order_by_) as [[column direction]|e];
      [|left; by eexists]. cbn.
    destruct (str_lower direction) as [d|e]; [|left; by eexists]. cbn.
    destruct (String.eqb d "desc");
      (destruct (getattr_class_of (model_class self) column) as [a|e];
       [|left; by eexists]); cbn;
      [destruct (desc a) as [o|e]|destruct (asc a) as [o|e]];
      try (left; by eexists); right; by eexists. }
  right. exists q3. split; [apply H3|]. split; [apply H3|].
  destruct (is_None join_); cbn [negb]; run_session;
    by destruct (statement_error s q3).
Qed.

Lemma get_by_run (self : PostgresRepository) (field : string)
    (v join_ : value) (unique_ : bool) (s : AsyncSession) :
  (∃ e, get_by self field v join_ unique_ s = (Raise e, s))
  ∨ ∃ q, get_by self field v join_ unique_ s
         = (match statement_error s q with
            | Some e => Raise e
            | None =>
                if is_None join_
                then if unique_
                     then m ← one (scalars (fetch s q)); Ok (Single m)
                     else Ok (Several (scalars (fetch s q)))
                else Ok (Several (scalars (unique (fetch s q))))
            end,
            logged s (if is_None join_ then Scalars q else Execute q)).
Proof.
  unfold get_by. rewrite bind_lift.
  destruct (_query self join_ VNone) as [q0|e]; [|left; by eexists].
  rewrite bind_lift.
  destruct (_get_by self q0 field v) as [q|e]; [|left; by eexists].
  right. exists q. destruct (is_None join_); cbn [negb].
  - destruct unique_; run_session; destruct (statement_error s q); try done.
    by destruct (one _).
  - run_session. by destruct (statement_error s q).
Qed.

Lemma get_all_commits (self : PostgresRepository) (skip limit_ : Z)
    (join_ where' order_by_ : value) (s : AsyncSession) :
  commits (get_all self skip limit_ join_ where' order_by_ s).2 = commits s.
Proof.
  destruct (get_all_run self skip limit_ join_ where' order_by_ s)
    as [[e ->]|(q & _ & _ & ->)]; [done|].
  cbn [snd]. rewrite commits_logged. destruct (is_None join_); lia.
Qed.

Lemma get_by_commits (self : PostgresRepository) (field : string)
    (v join_ : value) (unique_ : bool) (s : AsyncSession) :
  commits (get_by self field v join_ unique_ s).2 = commits s.
Proof.
  destruct (get_by_run self field v join_ unique_ s) as [[e ->]|(q & ->)];
    [done|].
  cbn [snd]. rewrite commits_logged. destruct (is_None join_); lia.
Qed.

Lemma delete_run (self : PostgresRepository) (model : Instance)
    (s : AsyncSession) :
  delete self model s
  = (match inst_state model with
     | Some _ => Raise AttributeError
     | None =>
         match refuses_delete s model with
         | Some e => Raise e
         | None => Ok ()
         end
     end, logged s (Delete model)).
Proof.
  unfold delete, session_delete, instance_state.
  by destruct (inst_state model).
Qed.

Lemma staging_only (self : PostgresRepository) (ops : list staging_op)
    (s : AsyncSession) :
  ∃ new, calls (foldl (run_op self) s ops) = calls s ++ new
         ∧ forallb staging_call new = true.
Proof.
  revert s. induction ops as [|op ops IH]; intros s.
  { exists []. by rewrite app_nil_r. }
  cbn [foldl]. destruct (IH (run_op self s op)) as (new & -> & Hnew).
  destruct op as [attributes|model]; cbn [run_op].
  - pose proof (create_stages self attributes s) as H.
    destruct (create self attributes s).1 as [model|]; rewrite H.
    + exists (Add model :: new). cbn [logged calls]. by rewrite <- app_assoc.
    + by exists new.
  - rewrite delete_run. exists (Delete model :: new). cbn [snd logged calls].
    by rewrite <- app_assoc.
Qed.

(** The three ways [update] can end: the loop raises and the session has
    received nothing; [add] raises; or [add] and [commit] were both sent,
    and the commit decides. *)
Lemma update_run (self : PostgresRepository) (model : Instance)
    (attributes : value) (s : AsyncSession) :
  (∃ e, update self model attributes s = (Raise e, s))
  ∨ (∃ model' e,
       update self model attributes s = (Raise e, logged s (Add model')))
  ∨ ∃ model',
      update self model attributes s
      = (match commit_error s (calls s ++ [Add model']) with
         | Some e => Raise e
         | None => Ok (after_commit s model')
         end, logged (logged s (Add model')) Commit).
Proof.
  destruct (items attributes) as [kvs|e] eqn:Hi.
  - assert (attributes = VDict kvs) as ->
      by (destruct attributes; cbn in Hi; by simplify_eq).
    rewrite update_dict.
    destruct (foldM update_attribute model kvs) as [model'|e];
      [|left; by eexists].
    right. destruct (inst_state model');
      [left; by eexists _, _|right; by eexists].
  - left. exists e. unfold update. by rewrite bind_lift, Hi.
Qed.

(** C5.  [create] only adds the model to the session and [delete] only
    deletes it; neither commits, so a sequence of [create] and [delete]
    calls sends the session nothing but [add] and [delete] calls and
    leaves the number of commits where it was.  [create] with the fields
    of the model does stage the model it returns, and [delete] sends its
    call whatever the session answers.  [update], on the attributes it can
    assign, sends [add] of the model and then one commit; whenever it
    returns, it has committed exactly once.  The queries [get_all] and
    [get_by] never commit. *)
Theorem only_update_commits (self : PostgresRepository) :
  (∀ attributes s,
     match (create self attributes s).1 with
     | Ok model => (create self attributes s).2 = logged s (Add model)
     | Raise _ => (create self attributes s).2 = s
     end)
  ∧ (∀ kvs s,
       Forall (λ k, is_Some (find_column (columns (model_class self)) k))
              kvs.*1 →
       ∃ model, create self (VDict kvs) s = (Ok model, logged s (Add model)))
  ∧ (∀ model s,
       (delete self model s).2 = logged s (Delete model)
       ∧ (inst_state model = None →
          (delete self model s).1
          = match refuses_delete s model with
            | Some e => Raise e
            | None => Ok ()
            end))
  ∧ (∀ ops s,
       commits (foldl (run_op self) s ops) = commits s
       ∧ ∃ new, calls (foldl (run_op self) s ops) = calls s ++ new
                ∧ forallb staging_call new = true)
  ∧ (∀ model kvs s,
       inst_expired model = false →
       inst_state model = None →
       STATE_ATTR ∉ kvs.*1 →
       Forall (assignable (inst_class model)) kvs →
       ∃ model',
         calls (update self model (VDict kvs) s).2
         = calls s ++ [Add model'; Commit]
         ∧ commits (update self model (VDict kvs) s).2 = S (commits s))
  ∧ (∀ model attributes s model',
       (update self model attributes s).1 = Ok model' →
       commits (update self model attributes s).2 = S (commits s))
  ∧ (∀ skip limit_ join_ where' order_by_ s,
       commits (get_all self skip limit_ join_ where' order_by_ s).2
       = commits s)
  ∧ (∀ field v join_ unique_ s,
       commits (get_by self field v join_ unique_ s).2 = commits s).
Proof.
  split; [apply create_stages|].
  split; [|split; [|split; [|split; [|split; [|split]]]]].
  - intros kvs s Hall. rewrite create_dict. unfold construct.
    rewrite construct_valid by done. by eexists.
  - intros model s. rewrite delete_run. split; [done|]. by intros ->.
  - intros ops s. split; [|apply staging_only]. revert s.
    induction ops as [|op ops IH]; intros s; [done|].
    cbn [foldl]. rewrite IH. destruct op as [attributes|model]; cbn [run_op].
    + apply create_commits.
    + rewrite delete_run. cbn [snd]. rewrite commits_logged. lia.
  - intros model kvs s Hlive Hstate Hst Hall. rewrite update_dict.
    destruct (update_loop kvs model Hlive Hst Hall)
      as (model' & -> & _ & _ & Hstate' & _).
    rewrite Hstate', Hstate. exists model'. cbn [snd]. split.
    + cbn [logged calls]. by rewrite <- app_assoc.
    + rewrite !commits_logged. lia.
  - intros model attributes s model'.
    destruct (update_run self model attributes s)
      as [[e ->]|[(m & e & ->)|[m ->]]]; [done|done|].
    intros _. cbn [snd]. rewrite !commits_logged. lia.
  - apply get_all_commits.
  - apply get_by_commits.
Qed.

Lemma only_update_commits_witness :
  (∃ model,
     create Fixture.users (VDict [("name", VStr "x")]) Fixture.session
     = (Ok model, logged Fixture.session (Add model)))
  ∧ (delete Fixture.users (Fixture.user 2 "bob" 41) Fixture.strict_session).1
    = Raise InvalidRequestError
  ∧ calls (delete Fixture.users (Fixture.user 2 "bob" 41)
             Fixture.strict_session).2
    = [Delete (Fixture.user 2 "bob" 41)]
  ∧ commits (update Fixture.users (Fixture.user 1 "ann" 30)
               (VDict [("name", VStr "eve")]) Fixture.session).2 = 1
  ∧ commits (update Fixture.users (Fixture.user 1 "ann" 30)
               (VDict [("name", VStr "eve")]) Fixture.strict_session).2 = 1.
Proof.
  destruct (only_update_commits Fixture.users)
    as (_ & Hcreate & Hdelete & _ & Hupdate & _).
  split; [|split; [|split; [|split]]].
  - apply Hcreate. cbn. repeat constructor. by eexists.
  - destruct (Hdelete (Fixture.user 2 "bob" 41) Fixture.strict_session)
      as [_ H]. by rewrite H.
  - destruct (Hdelete (Fixture.user 2 "bob" 41) Fixture.strict_session)
      as [H _]. by rewrite H.
  - destruct (Hupdate (Fixture.user 1 "ann" 30) [("name", VStr "eve")]
                Fixture.session) as (model' & _ & H);
      [reflexivity|reflexivity|by apply (bool_decide_unpack _)| |exact H].
    repeat constructor; intros a [= <-]; reflexivity.
  - destruct (Hupdate (Fixture.user 1 "ann" 30) [("name", VStr "eve")]
                Fixture.strict_session) as (model' & _ & H);
      [reflexivity|reflexivity|by apply (bool_decide_unpack _)| |exact H].
    repeat constructor; intros a [= <-]; reflexivity.
Defined.

Example staging_without_commit :
  commits (foldl (run_op Fixture.users) Fixture.session
             [DoCreate (VDict [("name", VStr "x")]);
              DoDelete (Fixture.user 2 "bob" 41);
              DoCreate (VDict [("bogus", VInt 0)]);
              DoCreate VNone]) = 0
  ∧ length (calls (foldl (run_op Fixture.users) Fixture.session
                     [DoCreate (VDict [("name", VStr "x")]);
                      DoDelete (Fixture.user 2 "bob" 41);
                      DoCreate (VDict [("bogus", VInt 0)]);
                      DoCreate VNone])) = 3.
Proof. split; vm_compute; reflexivity. Qed.

(** ** The health-check endpoint *)

Lemma serve_sound (c : Cache) (r : Request * Test * Z) :
  (∀ k e, cache_lookup k c = Some e →
          cached_payload e = [("status", VStr "ok")]) →
  ∀ k e, cache_lookup k (serve c r).2 = Some e →
         cached_payload e = [("status", VStr "ok")].
Proof.
  intros Hc k e. destruct r as [[request params] now].
  unfold serve, HealthCheck.get, cached.
  destruct (cache_lookup _ c) as [e0|];
    [destruct (now <? stored_at e0 + 120)%Z|]; cbn; try apply Hc;
    (destruct (decide _); [by intros [= <-]|apply Hc]).
Qed.

Lemma cache_after_sound (history : list (Request * Test * Z)) (k : CacheKey)
    (e : CacheEntry) :
  cache_lookup k (cache_after history) = Some e →
  cached_payload e = [("status", VStr "ok")].
Proof.
  unfold cache_after. revert k e.
  assert (H : ∀ c, (∀ k e, cache_lookup k c = Some e →
                           cached_payload e = [("status", VStr "ok")]) →
                   ∀ k e, cache_lookup k (foldl (λ c r, (serve c r).2) c history)
                          = Some e →
                          cached_payload e = [("status", VStr "ok")]).
  { induction history as [|r history IH]; intros c Hc; [done|].
    cbn [foldl]. apply IH. by apply serve_sound. }
  apply H. intros k e [=].
Qed.

(** C10.  The health-check handler returns [{"status": "ok"}] whatever the
    request and its [test1] parameter are.  Served through the cache and
    the endpoint layer, after any history of earlier requests, the response
    is HTTP 200 with that body, and the only state that can change is the
    cache, which at most gains the entry of this request. *)
Theorem health_check_constant (history : list (Request * Test * Z))
    (request : Request) (params : Test) (now : Z) :
  HealthCheck.get_body request params = [("status", VStr "ok")]
  ∧ (serve (cache_after history) (request, params, now)).1
    = {| status_code := 200; body := [("status", VStr "ok")] |}
  ∧ ((serve (cache_after history) (request, params, now)).2
     = cache_after history
     ∨ (serve (cache_after history) (request, params, now)).2
       = ((GET_HEALTH_CHECK, [test1 params]),
          {| stored_at := now; cached_payload := [("status", VStr "ok")] |})
         :: cache_after history).
Proof.
  split; [reflexivity|].
  pose proof (cache_after_sound history (GET_HEALTH_CHECK, [test1 params]))
    as Hc.
  unfold serve, HealthCheck.get, cached. cbn [fmap list_fmap query_param].
  change (String.eqb "test1" "test1") with true. cbn iota.
  destruct (cache_lookup _ (cache_after history)) as [e0|].
  - destruct (now <? stored_at e0 + 120)%Z; cbn.
    + split; [|by left]. unfold respond. by rewrite (Hc e0 eq_refl).
    + split; [done|by right].
  - cbn. split; [done|by right].
Qed.

Example health_check_cached :
  let a := {| test1 := Some "a"; test2 := None |} in
  let b := {| test1 := Some "b"; test2 := None |} in
  let history := [(Fixture.request, a, 0%Z)] in
  serve (cache_after history) (Fixture.request, a, 100%Z)
  = (respond [("status", VStr "ok")], cache_after history)
  ∧ length (serve (cache_after history) (Fixture.request, b, 100%Z)).2 = 2
  ∧ length (serve (cache_after history) (Fixture.request, a, 120%Z)).2 = 2.
Proof. repeat split; vm_compute; reflexivity. Qed.

(** * Further properties of the repository *)

(** ** The statement a query runs *)

(** One entry of [where] gives a filter, unless the class has no such
    attribute ([AttributeError]) or [between] refuses the attribute
    ([ArgumentError]). *)
Lemma where_condition_outcome (self : PostgresRepository) (k : string)
    (v : value) :
  match getattr_class (model_class self) k with
  | Ok a => (∃ c, where_condition self (k, v) = Ok c)
            ∨ where_condition self (k, v) = Raise ArgumentError
  | Raise e => where_condition self (k, v) = Raise e
  end.
Proof.
  unfold where_condition.
  destruct (getattr_class (model_class self) k) as [a|e] eqn:Ha.
  - destruct v as [| | | | | | | |d|]; cbn [isinstance_dict contains andb];
      try (left; by eexists).
    destruct (dict_get d "$gt") as [lo|] eqn:Hlo.
    + destruct (dict_get d "$lt") as [hi|] eqn:Hhi.
      * rewrite (dict_contains_Some _ _ _ Hlo), (dict_contains_Some _ _ _ Hhi).
        cbn. rewrite Hlo, Hhi. cbn.
        destruct a as [c| |o]; cbn; try (left; by eexists).
        destruct (sql_operand o); [left; by eexists|by right].
      * rewrite (dict_contains_None _ _ Hhi), andb_false_r. left. by eexists.
    + rewrite (dict_contains_None _ _ Hlo). left. by eexists.
  - by destruct (isinstance_dict v && contains v "$gt" && contains v "$lt").
Qed.

Lemma length_unique_from (seen : list nat) (rs : list Row) :
  length (unique_from seen rs) ≤ length rs.
Proof.
  revert seen. induction rs as [|r rs IH]; intros seen; [done|].
  cbn. case_bool_decide; cbn.
  - specialize (IH seen). lia.
  - specialize (IH (r.1 :: seen)). lia.
Qed.

Lemma fetch_limit (s : AsyncSession) (q : Select) (n : Z) :
  limit_clause q = Some n → length (fetch s q) ≤ Z.to_nat n.
Proof.
  intros H. unfold fetch. rewrite H. rewrite length_take. lia.
Qed.

(** X1.  Whatever the joins, filters and ordering, [get_all] never returns
    more than [limit] records: the limit is set on the statement after the
    joins are added, and de-duplication can only shorten the result. *)
Theorem get_all_at_most_limit (self : PostgresRepository) (skip limit_ : Z)
    (join_ where' order_by_ : value) (s : AsyncSession)
    (ms : list Instance) :
  (0 ≤ limit_)%Z →
  (get_all self skip limit_ join_ where' order_by_ s).1 = Ok ms →
  (Z.of_nat (length ms) ≤ limit_)%Z.
Proof.
  intros Hl Hms.
  destruct (get_all_run self skip limit_ join_ where' order_by_ s)
    as [[e He]|(q & _ & Hq & Hrun)]; rewrite ?He, ?Hrun in Hms; [done|].
  pose proof (fetch_limit s q limit_ Hq) as Hf.
  cbn [fst] in Hms. destruct (statement_error s q); [done|].
  injection Hms as <-.
  unfold scalars, unique; rewrite length_fmap;
    rewrite <- (Z2Nat.id limit_) by done; apply Nat2Z.inj_le.
  destruct (is_None join_).
  - exact Hf.
  - etrans; [apply length_unique_from|exact Hf].
Qed.

Lemma get_all_at_most_limit_witness :
  (Z.of_nat (length [Fixture.user 1 "ann" 30; Fixture.user 2 "bob" 41]) ≤ 3)%Z.
Proof.
  apply (get_all_at_most_limit Fixture.users 0 3 (VSet [VStr "tasks"]) VNone
           (VTuple [VStr "name"; VStr "asc"]) Fixture.session).
  - lia.
  - vm_compute. reflexivity.
Defined.

(** ** get_by without [unique] *)

(** X2.  [get_by(field, value)] with the defaults ([join_] is [None],
    [unique] is false), on a field of the model, sends one statement.  When
    the session runs it, the call returns every row that matches the
    equality filter, in table order, and does not raise when nothing or
    more than one row matches; when the session raises, the call raises
    the same. *)
Theorem get_by_all_matching (self : PostgresRepository) (field : string)
    (v : value) (a : class_attr) (s : AsyncSession) :
  getattr_class (model_class self) field = Ok a →
  let q := where_ (select (model_class self)) (CEq a v) in
  get_by self field v VNone false s
  = (match statement_error s q with
     | Some e => Raise e
     | None => Ok (Several (List.filter (holds (CEq a v)) (table s)))
     end, logged s (Scalars q)).
Proof.
  intros Ha q. subst q. unfold get_by, _get_by. rewrite query_no_join by done.
  rewrite Ha. cbn. step_M. run_session.
  destruct (statement_error s _); [done|].
  rewrite fetch_plain by done. cbn -[List.filter forallb].
  by rewrite filter_single_cond.
Qed.

Lemma get_by_all_matching_witness :
  (get_by Fixture.users "name" (VStr "bob") VNone false Fixture.session).1
  = Ok (Several [Fixture.user 2 "bob" 41; Fixture.user 3 "bob" 25])
  ∧ (get_by Fixture.users "name" (VStr "zed") VNone false Fixture.session).1
    = Ok (Several [])
  ∧ (get_by Fixture.users "metadata" (VInt 5) VNone false Fixture.session).1
    = Ok (Several [])
  ∧ (get_by Fixture.users "age" (VInt 9223372036854775808) VNone false
       Fixture.strict_session).1
    = Raise DBAPIError.
Proof.
  split; [|split; [|split]].
  - rewrite (get_by_all_matching Fixture.users "name" (VStr "bob")
               (AColumn Fixture.c_name) Fixture.session eq_refl).
    reflexivity.
  - rewrite (get_by_all_matching Fixture.users "name" (VStr "zed")
               (AColumn Fixture.c_name) Fixture.session eq_refl).
    reflexivity.
  - rewrite (get_by_all_matching Fixture.users "metadata" (VInt 5)
               (AObject (Fixture.plain (VObject "MetaData")))
               Fixture.session eq_refl).
    reflexivity.
  - rewrite (get_by_all_matching Fixture.users "age"
               (VInt 9223372036854775808)
               (AColumn Fixture.c_age) Fixture.strict_session eq_refl).
    reflexivity.
Defined.

(** ** Unknown fields *)

Lemma mapM_where_unknown (self : PostgresRepository)
    (kvs : list (string * value)) (k : string) :
  k ∈ kvs.*1 →
  getattr_class (model_class self) k = Raise AttributeError →
  ∃ e, mapM (where_condition self) kvs = Raise e
       ∧ (e = AttributeError ∨ e = ArgumentError)
       ∧ (kvs.*1 = [k] → e = AttributeError).
Proof.
  intros Hin Hk. induction kvs as [|[k0 v0] kvs IH].
  { by apply elem_of_nil in Hin. }
  cbn [mapM]. pose proof (where_condition_outcome self k0 v0) as H0.
  destruct (getattr_class (model_class self) k0) as [a|e] eqn:Hk0.
  - cbn in Hin.
    apply elem_of_cons in Hin as [->|Hin]; [congruence|].
    destruct H0 as [[c ->]| ->].
    + destruct (IH Hin) as (e & -> & He & _). exists e. split; [done|].
      split; [done|]. cbn. intros [= -> Hnil].
      apply fmap_nil_inv in Hnil. subst kvs. by apply elem_of_nil in Hin.
    + exists ArgumentError. split; [done|]. split; [by right|].
      cbn. intros [= -> Hnil].
      apply fmap_nil_inv in Hnil. subst kvs. by apply elem_of_nil in Hin.
  - rewrite H0.
    assert (hasattr_class (model_class self) k0 = false) as Hh
      by (unfold hasattr_class; by rewrite Hk0).
    apply getattr_class_unknown in Hh. rewrite Hh in Hk0.
    injection Hk0 as <-. exists AttributeError. by split; [|split; [left|]].
Qed.

(** X3.  A field name that the model class does not have as an attribute
    makes the queries raise before the session is used: [get_by] on that
    field raises [AttributeError]; so does [get_all] ordered by that
    column; and [get_all] with that key anywhere in [where] raises
    [AttributeError], unless an earlier entry is a range that [between]
    refuses first, with [ArgumentError]. *)
Theorem unknown_field_attribute_error (self : PostgresRepository)
    (k : string) (join_ : value) (q : Select) (s : AsyncSession) :
  hasattr_class (model_class self) k = false →
  _query self join_ VNone = Ok q →
  (∀ v unique_,
     get_by self k v join_ unique_ s = (Raise AttributeError, s))
  ∧ (∀ skip limit_ kvs order_by_,
       k ∈ kvs.*1 →
       ∃ e, get_all self skip limit_ join_ (VDict kvs) order_by_ s
            = (Raise e, s)
            ∧ (e = AttributeError ∨ e = ArgumentError)
            ∧ (kvs.*1 = [k] → e = AttributeError))
  ∧ (∀ skip limit_ direction,
       get_all self skip limit_ join_ VNone
         (VTuple [VStr k; VStr direction]) s
       = (Raise AttributeError, s)).
Proof.
  intros Hk Hq.
  pose proof (getattr_class_unknown _ _ Hk) as Ha.
  split; [|split].
  - intros v unique_. unfold get_by, _get_by. by rewrite Hq, Ha.
  - intros skip limit_ kvs order_by_ Hin. unfold get_all. rewrite Hq.
    rewrite bind_lift. cbn -[mapM].
    destruct (mapM_where_unknown self kvs k Hin Ha) as (e & -> & He).
    by exists e.
  - intros skip limit_ direction. unfold get_all. rewrite Hq.
    rewrite !bind_lift. cbn. rewrite Ha.
    by destruct (String.eqb (lower direction) "desc").
Qed.

Lemma unknown_field_attribute_error_witness :
  get_by Fixture.users "email" (VStr "a@b") VNone true Fixture.session
  = (Raise AttributeError, Fixture.session)
  ∧ get_all Fixture.users 0 10 VNone (VDict [("email", VStr "a@b")]) VNone
      Fixture.session
    = (Raise AttributeError, Fixture.session)
  ∧ ∃ e, get_all Fixture.users 0 10 VNone
           (VDict [("name", VStr "bob"); ("email", VStr "a@b")]) VNone
           Fixture.session
         = (Raise e, Fixture.session).
Proof.
  destruct (unknown_field_attribute_error Fixture.users "email" VNone
              (select Fixture.User) Fixture.session eq_refl eq_refl)
    as (Hby & Hwhere & _).
  split; [apply Hby|]. split.
  - destruct (Hwhere 0%Z 10%Z [("email", VStr "a@b")] VNone)
      as (e & Hrun & _ & He); [cbn; repeat constructor|].
    by rewrite Hrun, (He eq_refl).
  - destruct (Hwhere 0%Z 10%Z
                [("name", VStr "bob"); ("email", VStr "a@b")] VNone)
      as (e & Hrun & _); [cbn; repeat constructor|].
    by exists e.
Defined.

(** ** Filters and pages *)

Lemma mapM_Ok_elem {A B : Type} (f : A → result B) (l : list A)
    (bs : list B) (a : A) (b : B) :
  mapM f l = Ok bs → a ∈ l → f a = Ok b → b ∈ bs.
Proof.
  revert bs. induction l as [|a0 l IH]; intros bs Hm Hin Hf.
  { by apply elem_of_nil in Hin. }
  cbn [mapM] in Hm.
  destruct (f a0) as [b0|] eqn:Hf0; [|done]. cbn in Hm.
  destruct (mapM f l) as [bs'|]; [|done]. cbn in Hm. injection Hm as <-.
  apply elem_of_cons in Hin as [->|Hin].
  - rewrite Hf in Hf0. injection Hf0 as <-. apply list_elem_of_here.
  - apply list_elem_of_further. by apply IH.
Qed.

Lemma sublist_list_filter {A : Type} (f : A → bool) (l : list A) :
  List.filter f l `sublist_of` l.
Proof.
  induction l as [|x l IH]; [done|]. cbn.
  destruct (f x); by constructor.
Qed.

(** X4.  The entries of the [where] mapping are combined with AND: when
    [get_all] (no joins, no ordering) returns, its records are rows of the
    table, in table order, and each of them satisfies the filter built
    from every entry of the mapping. *)
Theorem get_all_where_conjunction (self : PostgresRepository)
    (skip limit_ : Z) (kvs : list (string * value)) (s : AsyncSession)
    (ms : list Instance) :
  (get_all self skip limit_ VNone (VDict kvs) VNone s).1 = Ok ms →
  ms `sublist_of` table s
  ∧ ∀ m kv c, m ∈ ms → kv ∈ kvs → where_condition self kv = Ok c →
              holds c m = true.
Proof.
  intros Hms.
  destruct (mapM (where_condition self) kvs) as [conditions|e] eqn:Hc.
  - rewrite (get_all_where self skip limit_ kvs conditions s Hc) in Hms.
    cbn [fst] in Hms. destruct (statement_error s _); [done|].
    injection Hms as <-. split.
    + etrans; [apply sublist_take|]. etrans; [apply sublist_drop|].
      apply sublist_list_filter.
    + intros m kv c Hm Hkv Hkc.
      pose proof (mapM_Ok_elem _ _ _ _ _ Hc Hkv Hkc) as Hin.
      eapply elem_of_sublist in Hm;
        [|etrans; [apply sublist_take|apply sublist_drop]].
      apply list_elem_of_In, filter_In in Hm as [_ Hm].
      rewrite forallb_forall in Hm. by apply Hm, list_elem_of_In.
  - exfalso. revert Hms. unfold get_all. rewrite query_no_join by done.
    rewrite bind_lift. cbn -[mapM]. by rewrite Hc.
Qed.

Lemma get_all_where_conjunction_witness :
  [Fixture.user 3 "bob" 25] `sublist_of` table Fixture.session
  ∧ holds (CBetween (AColumn Fixture.c_age) (VInt 20) (VInt 30))
          (Fixture.user 3 "bob" 25) = true.
Proof.
  destruct (get_all_where_conjunction Fixture.users 0 10
              [("name", VStr "bob");
               ("age", VDict [("$gt", VInt 20); ("$lt", VInt 30)])]
              Fixture.session [Fixture.user 3 "bob" 25]) as [H1 H2].
  - vm_compute. reflexivity.
  - split; [exact H1|].
    apply (H2 (Fixture.user 3 "bob" 25)
              ("age", VDict [("$gt", VInt 20); ("$lt", VInt 30)])).
    + repeat constructor.
    + repeat constructor.
    + reflexivity.
Defined.

Lemma filter_no_cond (l : list Instance) :
  List.filter (λ m, forallb (λ c, holds c m) []) l = l.
Proof. induction l as [|m l IH]; [done|]. cbn. f_equal. exact IH. Qed.

Lemma get_all_defaults (self : PostgresRepository) (skip limit_ : Z)
    (s : AsyncSession) :
  get_all self skip limit_ VNone VNone VNone s
  = (match statement_error s
             (limit (offset (select (model_class self)) skip) limit_) with
     | Some e => Raise e
     | None => Ok (take (Z.to_nat limit_) (drop (Z.to_nat skip) (table s)))
     end,
     logged s (Scalars (limit (offset (select (model_class self)) skip)
                              limit_))).
Proof.
  unfold get_all. rewrite query_no_join by done. cbn. step_M. run_session.
  destruct (statement_error s _); [done|].
  rewrite fetch_plain by done. cbn -[List.filter forallb].
  by rewrite filter_no_cond.
Qed.

(** X5.  With the defaults ([join_], [where] and [order_by] are [None]),
    [get_all(skip, limit)] sends one statement.  The session runs it only
    if [skip] and [limit] are not negative, and then the call returns the
    rows of the table from position [skip] on, at most [limit] of them, in
    table order; an empty [where] mapping, if its statement runs too,
    selects the same records.  A negative [skip] or [limit] makes the call
    raise the database's error. *)
Theorem get_all_page (self : PostgresRepository) (skip limit_ : Z)
    (s : AsyncSession) :
  let q := limit (offset (select (model_class self)) skip) limit_ in
  (statement_error s q = None →
   (0 ≤ skip)%Z ∧ (0 ≤ limit_)%Z
   ∧ (get_all self skip limit_ VNone VNone VNone s).1
     = Ok (take (Z.to_nat limit_) (drop (Z.to_nat skip) (table s)))
   ∧ (statement_error s (where_ q (CAnd [])) = None →
      (get_all self skip limit_ VNone (VDict []) VNone s).1
      = (get_all self skip limit_ VNone VNone VNone s).1))
  ∧ ((skip < 0 ∨ limit_ < 0)%Z →
     (get_all self skip limit_ VNone VNone VNone s).1 = Raise DBAPIError).
Proof.
  intros q. subst q. rewrite get_all_defaults. cbn [fst]. split.
  - intros Hq.
    destruct (statement_runs_bounds s
                (limit (offset (select (model_class self)) skip) limit_)
                skip limit_ eq_refl eq_refl Hq) as [Hs Hl].
    rewrite Hq. split; [done|]. split; [done|]. split; [done|].
    intros Hq'. rewrite (get_all_where self skip limit_ [] [] s eq_refl).
    cbn [fst]. rewrite Hq'. by rewrite filter_no_cond.
  - intros Hneg.
    by rewrite (statement_error_negative s
                  (limit (offset (select (model_class self)) skip) limit_)
                  skip limit_ eq_refl eq_refl Hneg).
Qed.

Lemma get_all_page_witness :
  (get_all Fixture.users 1 1 VNone VNone VNone Fixture.session).1
  = Ok [Fixture.user 2 "bob" 41]
  ∧ (get_all Fixture.users 0 (-1) VNone VNone VNone Fixture.session).1
    = Raise DBAPIError.
Proof.
  destruct (get_all_page Fixture.users 1 1 Fixture.session) as [H _].
  destruct (H eq_refl) as (_ & _ & Hpage & _).
  destruct (get_all_page Fixture.users 0 (-1) Fixture.session) as [_ Hneg].
  split; [exact Hpage|]. apply Hneg. right. lia.
Defined.

(** X6.  Pages tile: for a fixed [where] mapping (no joins, no ordering),
    when the session runs the three statements, the page [skip, n]
    followed by the page [skip + n, m], fetched next on the same session,
    is the page [skip, n + m]. *)
Theorem get_all_pages_tile (self : PostgresRepository) (skip n m : Z)
    (kvs : list (string * value)) (conditions : list cond)
    (s : AsyncSession) :
  mapM (where_condition self) kvs = Ok conditions →
  let q := λ skip limit_,
    where_ (limit (offset (select (model_class self)) skip) limit_)
           (CAnd conditions) in
  statement_error s (q skip n) = None →
  statement_error s (q (skip + n)%Z m) = None →
  statement_error s (q skip (n + m)%Z) = None →
  ∃ p1 p2,
    (get_all self skip n VNone (VDict kvs) VNone s).1 = Ok p1
    ∧ (get_all self (skip + n) m VNone (VDict kvs) VNone
         (get_all self skip n VNone (VDict kvs) VNone s).2).1 = Ok p2
    ∧ (get_all self skip (n + m) VNone (VDict kvs) VNone s).1 = Ok (p1 ++ p2).
Proof.
  intros Hc q H1 H2 H3. subst q. cbn beta in H1, H2, H3.
  pose proof (λ skip limit_,
    statement_runs_bounds s
      (where_ (limit (offset (select (model_class self)) skip) limit_)
              (CAnd conditions)) skip limit_ eq_refl eq_refl) as Hb.
  destruct (Hb _ _ H1) as [Hs Hn]. destruct (Hb _ _ H2) as [_ Hm].
  rewrite !(get_all_where self _ _ kvs conditions _ Hc).
  cbn [fst snd]. rewrite statement_error_logged, H1, H2, H3.
  cbn [logged table].
  eexists _, _. split; [done|]. split; [done|]. f_equal.
  rewrite !Z2Nat.inj_add by done.
  rewrite <- drop_drop. symmetry. apply take_take_drop.
Qed.

Lemma get_all_pages_tile_witness :
  ∃ p1 p2,
    (get_all Fixture.users 0 1 VNone (VDict [("name", VStr "bob")]) VNone
       Fixture.session).1 = Ok p1
    ∧ (get_all Fixture.users (0 + 1) 1 VNone (VDict [("name", VStr "bob")])
         VNone
         (get_all Fixture.users 0 1 VNone (VDict [("name", VStr "bob")])
            VNone Fixture.session).2).1 = Ok p2
    ∧ (get_all Fixture.users 0 (1 + 1) VNone (VDict [("name", VStr "bob")])
         VNone Fixture.session).1 = Ok (p1 ++ p2).
Proof.
  apply (get_all_pages_tile Fixture.users 0 1 1 [("name", VStr "bob")]
           [CEq (AColumn Fixture.c_name) (VStr "bob")] Fixture.session);
    reflexivity.
Defined.

(** ** What the operations send to the session *)

(** X7.  The queries are read-only and make at most one round trip.
    [get_all] and [get_by] either raise before the session is used, or
    send it exactly one call, [scalars] when [join_] is [None] and
    [execute] otherwise, whether the session then answers or raises; a
    query that returns has sent that call.  Neither adds, deletes or
    commits. *)
Theorem queries_one_round_trip (self : PostgresRepository)
    (join_ : value) (s : AsyncSession) :
  (∀ skip limit_ where' order_by_,
     (∃ e, get_all self skip limit_ join_ where' order_by_ s = (Raise e, s))
     ∨ ∃ q, (get_all self skip limit_ join_ where' order_by_ s).2
            = logged s (if is_None join_ then Scalars q else Execute q))
  ∧ (∀ field v unique_,
       (∃ e, get_by self field v join_ unique_ s = (Raise e, s))
       ∨ ∃ q, (get_by self field v join_ unique_ s).2
              = logged s (if is_None join_ then Scalars q else Execute q)).
Proof.
  split.
  - intros skip limit_ where' order_by_.
    destruct (get_all_run self skip limit_ join_ where' order_by_ s)
      as [[e ->]|(q & _ & _ & ->)]; [left; by eexists|right; by exists q].
  - intros field v unique_.
    destruct (get_by_run self field v join_ unique_ s) as [[e ->]|[q ->]];
      [left; by eexists|right; by exists q].
Qed.

(** X8.  What [update] sends to the session: nothing, when its loop raises
    (attributes without [items()], an attribute that refuses the
    assignment); [add] alone, when [add] raises; otherwise [add] of the
    model followed by one [commit], and then the commit decides between
    its exception and the model.  It never commits what it has not added,
    and when it returns both calls were sent. *)
Theorem update_session_calls (self : PostgresRepository) (model : Instance)
    (attributes : value) (s : AsyncSession) :
  ((∃ e, update self model attributes s = (Raise e, s))
   ∨ (∃ model' e,
        update self model attributes s = (Raise e, logged s (Add model')))
   ∨ ∃ model',
       update self model attributes s
       = (match commit_error s (calls s ++ [Add model']) with
          | Some e => Raise e
          | None => Ok (after_commit s model')
          end, logged (logged s (Add model')) Commit))
  ∧ ∀ m, (update self model attributes s).1 = Ok m →
         ∃ model', m = after_commit s model'
                   ∧ (update self model attributes s).2
                     = logged (logged s (Add model')) Commit.
Proof.
  split; [apply update_run|].
  intros m.
  destruct (update_run self model attributes s)
    as [[e ->]|[(m' & e & ->)|[m' ->]]]; [done|done|].
  cbn [fst snd]. destruct (commit_error s _); [done|].
  intros [= <-]. by exists m'.
Qed.

Lemma update_session_calls_witness :
  (∃ model',
     (update Fixture.users (Fixture.user 1 "ann" 30)
        (VDict [("name", VStr "eve")]) Fixture.session).2
     = logged (logged Fixture.session (Add model')) Commit)
  ∧ (update Fixture.users (Fixture.user 1 "ann" 30)
       (VDict [("as_dict", VInt 1)]) Fixture.session).2 = Fixture.session.
Proof.
  split.
  - destruct (update_session_calls Fixture.users (Fixture.user 1 "ann" 30)
                (VDict [("name", VStr "eve")]) Fixture.session)
      as [[[e He]|[(m & e & He)|[m He]]] _].
    + vm_compute in He. discriminate He.
    + vm_compute in He. discriminate He.
    + exists m. by rewrite He.
  - vm_compute. reflexivity.
Defined.

Example update_commit_fails :
  (update Fixture.users (Fixture.user 1 "ann" 30)
     (VDict [("name", VStr "eve")]) Fixture.strict_session).1
  = Raise DBAPIError
  ∧ length (calls (update Fixture.users (Fixture.user 1 "ann" 30)
                     (VDict [("name", VStr "eve")])
                     Fixture.strict_session).2) = 2.
Proof. split; vm_compute; reflexivity. Qed.

(** ** update, twice and read back *)

Lemma dict_get_elem {A : Type} (d : list (string * A)) (k : string) (v : A) :
  dict_get d k = Some v → (k, v) ∈ d.
Proof.
  induction d as [|[k' v'] d IH]; [done|]. cbn.
  destruct (String.eqb k' k) eqn:E.
  - apply String.eqb_eq in E. intros [= ->]. subst. apply list_elem_of_here.
  - intros H. by apply list_elem_of_further, IH.
Qed.

Lemma dict_get_not_elem {A : Type} (d : list (string * A)) (k : string) :
  dict_get d k = None → k ∉ d.*1.
Proof.
  induction d as [|[k' v'] d IH]; cbn; [intros _; apply not_elem_of_nil|].
  destruct (String.eqb k' k) eqn:E; [done|].
  apply String.eqb_neq in E. intros H. apply not_elem_of_cons. auto.
Qed.

Lemma Instance_eq (m1 m2 : Instance) :
  inst_class m1 = inst_class m2 →
  inst_expired m1 = inst_expired m2 →
  inst_state m1 = inst_state m2 →
  (∀ k, inst_dict m1 !! k = inst_dict m2 !! k) →
  m1 = m2.
Proof.
  destruct m1, m2. cbn. intros -> -> -> H. f_equal. by apply map_eq.
Qed.

(** The loop of [update] is idempotent. *)
Lemma update_loop_idempotent (kvs : list (string * value))
    (model model' : Instance) :
  NoDup kvs.*1 →
  inst_expired model = false →
  STATE_ATTR ∉ kvs.*1 →
  Forall (assignable (inst_class model)) kvs →
  foldM update_attribute model kvs = Ok model' →
  foldM update_attribute model' kvs = Ok model'.
Proof.
  intros Hnd Hlive Hst Hall Hrun.
  destruct (update_loop kvs model Hlive Hst Hall)
    as (m1 & Hm1 & Hcls1 & Hlive1 & Hstate1 & Hhas1 & Hframe1 & Hset1).
  rewrite Hrun in Hm1. injection Hm1 as <-.
  rewrite <- Hcls1 in Hall.
  destruct (update_loop kvs model' Hlive1 Hst Hall)
    as (m2 & Hm2 & Hcls2 & Hlive2 & Hstate2 & Hhas2 & Hframe2 & Hset2).
  rewrite Hm2. f_equal.
  apply Instance_eq; [done|congruence|done|]. intros k.
  destruct (dict_get kvs k) as [v|] eqn:Hv.
  - apply dict_get_elem in Hv.
    pose proof (hasattr_live model' k Hlive1) as Hk.
    destruct (visible (inst_class model') k
              || negb (hasattr_class (inst_class model') k)
                 && String.eqb k STATE_ATTR
              || bool_decide (is_Some (inst_dict model' !! k))).
    + rewrite (Hset2 Hnd k v Hv Hk). symmetry. apply (Hset1 Hnd k v Hv).
      by rewrite <- Hhas1.
    + by apply Hframe2; left.
  - apply dict_get_not_elem in Hv. by apply Hframe2; right.
Qed.

(** X9.  [update] is idempotent on the model it stages.  For a model that
    is not expired and a mapping (keys distinct) that [setattr] accepts,
    the model handed to [session.add], updated again with the same
    mapping, is handed to [session.add] unchanged; so on a session whose
    commit left the model as it was staged, a second [update] returns the
    model the first one returned. *)
Theorem update_idempotent (self : PostgresRepository) (model : Instance)
    (attributes : list (string * value)) (s s' : AsyncSession) :
  NoDup attributes.*1 →
  inst_expired model = false →
  inst_state model = None →
  STATE_ATTR ∉ attributes.*1 →
  Forall (assignable (inst_class model)) attributes →
  ∃ model',
    (update self model (VDict attributes) s).2
    = logged (logged s (Add model')) Commit
    ∧ (update self model' (VDict attributes) s').2
      = logged (logged s' (Add model')) Commit
    ∧ (commit_error s (calls s ++ [Add model']) = None →
       commit_error s' (calls s' ++ [Add model']) = None →
       after_commit s model' = model' →
       after_commit s' model' = model' →
       (update self model (VDict attributes) s).1 = Ok model'
       ∧ (update self model' (VDict attributes) s').1 = Ok model').
Proof.
  intros Hnd Hlive Hstate Hst Hall.
  destruct (update_loop attributes model Hlive Hst Hall)
    as (model' & Hrun & _ & _ & Hstate' & _).
  pose proof (update_loop_idempotent _ _ _ Hnd Hlive Hst Hall Hrun) as Hrun'.
  rewrite Hstate in Hstate'.
  exists model'. rewrite !update_dict, Hrun, Hrun', Hstate'. cbn [fst snd].
  split; [done|]. split; [done|].
  by intros -> -> -> ->.
Qed.

Lemma update_idempotent_witness :
  ∃ model',
    (update Fixture.users (Fixture.user 1 "ann" 30)
       (VDict [("name", VStr "eve"); ("nickname", VStr "e")])
       Fixture.session).1 = Ok model'
    ∧ (update Fixture.users model'
         (VDict [("name", VStr "eve"); ("nickname", VStr "e")])
         Fixture.session).1 = Ok model'.
Proof.
  destruct (update_idempotent Fixture.users (Fixture.user 1 "ann" 30)
              [("name", VStr "eve"); ("nickname", VStr "e")]
              Fixture.session Fixture.session) as (model' & _ & _ & H).
  - by apply (bool_decide_unpack _).
  - reflexivity.
  - reflexivity.
  - by apply (bool_decide_unpack _).
  - repeat constructor; intros a [= <-]; reflexivity.
  - exists model'. by apply H.
Defined.



(** ** De-duplication without joins *)

Lemma insert_sorted_Permutation {A : Type} (cmp : A → A → comparison) (x : A)
    (l : list A) :
  insert_sorted cmp x l ≡ₚ x :: l.
Proof.
  induction l as [|y l IH]; [done|]. cbn.
  destruct (cmp x y); try done.
  rewrite IH. apply Permutation_swap.
Qed.

Lemma stable_sort_Permutation {A : Type} (cmp : A → A → comparison)
    (l : list A) :
  stable_sort cmp l ≡ₚ l.
Proof.
  unfold stable_sort. induction l as [|x l IH]; [done|].
  cbn. by rewrite insert_sorted_Permutation, IH.
Qed.

Lemma table_rows_NoDup (l : list Instance) :
  NoDup (imap (λ i m, (i, m)) l).*1.
Proof.
  rewrite fmap_imap.
  rewrite (imap_ext _ (λ j _, id j) l) by done.
  rewrite imap_seq_0, list_fmap_id. apply NoDup_seq.
Qed.

(** Without joins, no entity comes twice among the rows of a statement. *)
Lemma fetch_NoDup (s : AsyncSession) (q : Select) :
  joined q = [] → NoDup (fetch s q).*1.
Proof.
  intros Hj. unfold fetch. rewrite Hj. cbn [foldl].
  set (selected := List.filter _ _).
  assert (Hsel : NoDup selected.*1).
  { eapply sublist_NoDup; [apply table_rows_NoDup|].
    apply fmap_sublist, sublist_list_filter. }
  set (ordered := stable_sort _ selected).
  assert (Hord : NoDup ordered.*1).
  { unfold ordered. by rewrite stable_sort_Permutation. }
  clearbody ordered. clear Hsel.
  assert (Hskip : NoDup
    match offset_clause q with
    | Some n => drop (Z.to_nat n) ordered
    | None => ordered
    end.*1).
  { destruct (offset_clause q); [|done].
    eapply sublist_NoDup; [exact Hord|apply fmap_sublist, sublist_drop]. }
  destruct (limit_clause q); [|done].
  eapply sublist_NoDup; [exact Hskip|apply fmap_sublist, sublist_take].
Qed.

Lemma unique_from_NoDup (seen : list nat) (rs : list Row) :
  NoDup rs.*1 →
  (∀ r, r ∈ rs → r.1 ∉ seen) →
  unique_from seen rs = rs.
Proof.
  revert seen. induction rs as [|r rs IH]; intros seen Hnd Hseen; [done|].
  cbn in Hnd. apply NoDup_cons in Hnd as [Hr Hnd]. cbn.
  rewrite bool_decide_eq_false_2 by apply Hseen, list_elem_of_here.
  f_equal. apply IH; [done|]. intros r' Hr'.
  apply not_elem_of_cons. split.
  - intros Heq. apply Hr. rewrite <- Heq. by apply list_elem_of_fmap_2.
  - by apply Hseen, list_elem_of_further.
Qed.

Lemma unique_NoDup (rs : list Row) : NoDup rs.*1 → unique rs = rs.
Proof.
  intros H. apply unique_from_NoDup; [done|].
  intros r _. apply not_elem_of_nil.
Qed.

(** The statement [get_all] runs is fixed by the joined query and the
    arguments other than [join_]. *)
Lemma get_all_statement (self : PostgresRepository) (skip limit_ : Z)
    (where' order_by_ : value) (q0 : Select) :
  ∃ r : result Select,
    (∀ q, r = Ok q → joined q = joined q0)
    ∧ ∀ join_ s,
        _query self join_ VNone = Ok q0 →
        get_all self skip limit_ join_ where' order_by_ s
        = match r with
          | Raise e => (Raise e, s)
          | Ok q =>
              (match statement_error s q with
               | Some e => Raise e
               | None =>
                   Ok (scalars (if is_None join_ then fetch s q
                                else unique (fetch s q)))
               end,
               logged s (if is_None join_ then Scalars q else Execute q))
          end.
Proof.
  set (q1 := limit (offset q0 skip) limit_).
  set (r2 :=
    if negb (is_None where') then
      kvs ← items where';
      conditions ← mapM (where_condition self) kvs;
      Ok (where_ q1 (CAnd conditions))
    else Ok q1).
  assert (H2 : ∀ q2, r2 = Ok q2 → joined q2 = joined q0).
  { unfold r2. intros q2. destruct (negb (is_None where')); [|by intros [= <-]].
    destruct (items where') as [kvs|]; [|done]. cbn.
    destruct (mapM (where_condition self) kvs); [|done]. by intros [= <-]. }
  set (order := λ query : Select,
    if negb (is_None order_by_) then
      '(column, direction) ← unpack2 order_by_;
      d ← str_lower direction;
      if String.eqb d "desc" then
        a ← getattr_class_of (model_class self) column;
        o ← desc a; Ok (order_by query o)
      else
        a ← getattr_class_of (model_class self) column;
        o ← asc a; Ok (order_by query o)
    else Ok query).
  assert (H3 : ∀ q2 q3, order q2 = Ok q3 → joined q3 = joined q2).
  { unfold order. intros q2 q3.
    destruct (negb (is_None order_by_)); [|by intros [= <-]].
    destruct (unpack2 order_by_) as [[column direction]|]; [|done]. cbn.
    destruct (str_lower direction) as [d|]; [|done]. cbn.
    destruct (String.eqb d "desc");
      (destruct (getattr_class_of (model_class self) column) as [a|];
       [|done]); cbn;
      [destruct (desc a)|destruct (asc a)]; try done; by intros [= <-]. }
  exists (q2 ← r2; order q2). split.
  - intros q. destruct r2 as [q2|]; [|done]. cbn. intros Hq.
    rewrite (H3 _ _ Hq). by apply H2.
  - intros join_ s Hq. unfold get_all. rewrite Hq, bind_lift.
    fold q1. fold r2. rewrite bind_lift.
    destruct r2 as [q2|]; [|done]. cbn [mbind result_bind].
    fold (order q2). rewrite bind_lift.
    destruct (order q2) as [q3|]; [|done].
    destruct (is_None join_); cbn [negb]; run_session;
      by destruct (statement_error s q3).
Qed.

(** X11.  A [join_] argument that is empty but not [None] (the empty set,
    an empty list) changes how the statement is run, [execute] and
    [unique] instead of [scalars], but not what [get_all] and [get_by]
    return: without joins no entity comes twice, so de-duplication
    removes nothing. *)
Theorem empty_join_same_results (self : PostgresRepository) (join_ : value)
    (s : AsyncSession) :
  truthy join_ = false →
  (∀ skip limit_ where' order_by_,
     (get_all self skip limit_ join_ where' order_by_ s).1
     = (get_all self skip limit_ VNone where' order_by_ s).1)
  ∧ (∀ field v,
       (get_by self field v join_ false s).1
       = (get_by self field v VNone false s).1).
Proof.
  intros Hj. pose proof (query_no_join self join_ Hj) as Hq.
  pose proof (query_no_join self VNone eq_refl) as Hq0.
  split.
  - intros skip limit_ where' order_by_.
    destruct (get_all_statement self skip limit_ where' order_by_
                (select (model_class self))) as (r & Hr & Hrun).
    rewrite (Hrun join_ s Hq), (Hrun VNone s Hq0).
    destruct r as [q|]; [|done]. cbn [is_None fst].
    destruct (statement_error s q); [done|].
    destruct (is_None join_); [done|].
    by rewrite unique_NoDup by (apply fetch_NoDup, (Hr q eq_refl)).
  - intros field v. unfold get_by. rewrite Hq, Hq0, !bind_lift.
    unfold _get_by.
    destruct (getattr_class (model_class self) field) as [a|]; [|done].
    cbn [mbind result_bind is_None negb].
    destruct (is_None join_); cbn [negb]; [done|].
    run_session. destruct (statement_error s _); [done|]. cbn [fst].
    by rewrite unique_NoDup by (by apply fetch_NoDup).
Qed.

Lemma empty_join_same_results_witness :
  (get_all Fixture.users 0 2 (VSet []) VNone
     (VTuple [VStr "age"; VStr "desc"]) Fixture.session).1
  = (get_all Fixture.users 0 2 VNone VNone
       (VTuple [VStr "age"; VStr "desc"]) Fixture.session).1.
Proof.
  apply (empty_join_same_results Fixture.users (VSet []) Fixture.session).
  reflexivity.
Defined.

(** ** Ordering *)

Lemma foldM_order_by (self : PostgresRepository) (names : list string)
    (cols : list Column) (query : Select) (d : direction)
    (method : class_attr → result (class_attr * direction)) :
  (∀ c, method (AColumn c) = Ok (AColumn c, d)) →
  Forall2 (λ n c, find_column (columns (model_class self)) n = Some c)
          names cols →
  foldM (λ query order,
           a ← getattr_class_of (model_class self) order;
           o ← method a; Ok (order_by query o))
        query (VStr <$> names)
  = Ok (foldl (λ q c, order_by q (AColumn c, d)) query cols).
Proof.
  intros Hm H. revert query.
  induction H as [|n c names cols Hn _ IH]; intros query; [done|].
  cbn [fmap list_fmap foldM getattr_class_of foldl].
  rewrite (getattr_class_column _ _ _ Hn). cbn. rewrite Hm. cbn. apply IH.
Qed.

(** X12.  [_maybe_ordered] looks at ["asc"] first.  When the list under
    ["asc"] is not empty, the query is ordered ascending by its columns, in
    list order, and whatever stands under ["desc"] is ignored; the list
    under ["desc"] is used, descending, only when the one under ["asc"] is
    empty. *)
Theorem maybe_ordered_asc_first (self : PostgresRepository) (query : Select)
    (d : list (string * value)) (names : list string) (cols : list Column) :
  Forall2 (λ n c, find_column (columns (model_class self)) n = Some c)
          names cols →
  (names ≠ [] →
   dict_get d "asc" = Some (VList (VStr <$> names)) →
   _maybe_ordered self query (VDict d)
   = Ok (foldl (λ q c, order_by q (AColumn c, Asc)) query cols))
  ∧ (dict_get d "asc" = Some (VList []) →
     dict_get d "desc" = Some (VList (VStr <$> names)) →
     _maybe_ordered self query (VDict d)
     = Ok (foldl (λ q c, order_by q (AColumn c, Desc)) query cols)).
Proof.
  intros Hcols. split.
  - intros Hne Hasc. unfold _maybe_ordered.
    assert (truthy (VDict d) = true) as -> by (by destruct d).
    cbn [getitem]. rewrite Hasc. cbn [mbind result_bind].
    assert (truthy (VList (VStr <$> names)) = true) as ->
      by (by destruct names).
    unfold reduce. cbn [iter mbind result_bind].
    by apply foldM_order_by.
  - intros Hasc Hdesc. unfold _maybe_ordered.
    assert (truthy (VDict d) = true) as -> by (by destruct d).
    cbn [getitem]. rewrite Hasc. cbn [mbind result_bind truthy nonempty].
    rewrite Hdesc. unfold reduce. cbn [iter mbind result_bind].
    by apply foldM_order_by.
Qed.

Lemma maybe_ordered_asc_first_witness :
  _maybe_ordered Fixture.users (select Fixture.User)
    (VDict [("desc", VList [VStr "id"]);
            ("asc", VList (VStr <$> ["name"; "age"]))])
  = Ok (order_by (order_by (select Fixture.User)
                           (AColumn Fixture.c_name, Asc))
                 (AColumn Fixture.c_age, Asc)).
Proof.
  apply (maybe_ordered_asc_first Fixture.users (select Fixture.User)
           [("desc", VList [VStr "id"]);
            ("asc", VList (VStr <$> ["name"; "age"]))]
           ["name"; "age"] [Fixture.c_name; Fixture.c_age]).
  - repeat constructor.
  - done.
  - reflexivity.
Defined.

(** X13.  [_maybe_ordered] subscripts the mapping: a non-empty [order_]
    without the key ["asc"] raises [KeyError], also when it has ["desc"];
    so does one whose ["asc"] entry is empty and that has no ["desc"]. *)
Theorem maybe_ordered_missing_key (self : PostgresRepository) (query : Select)
    (d : list (string * value)) :
  d ≠ [] →
  dict_get d "asc" = None
  ∨ (∃ a, dict_get d "asc" = Some a ∧ truthy a = false
          ∧ dict_get d "desc" = None) →
  _maybe_ordered self query (VDict d) = Raise KeyError.
Proof.
  intros Hd H. unfold _maybe_ordered.
  assert (truthy (VDict d) = true) as -> by (by destruct d).
  cbn [getitem]. destruct H as [->|(a & -> & Ha & Hdesc)]; [done|].
  cbn [mbind result_bind]. by rewrite Ha, Hdesc.
Qed.

Lemma maybe_ordered_missing_key_witness :
  _maybe_ordered Fixture.users (select Fixture.User)
    (VDict [("desc", VList [VStr "name"])]) = Raise KeyError.
Proof.
  apply (maybe_ordered_missing_key Fixture.users (select Fixture.User)
           [("desc", VList [VStr "name"])]); [done|].
  left. reflexivity.
Defined.

(** X14.  [get_all] orders descending exactly when the direction of
    [order_by] is ["desc"] up to letter case; every other direction string
    orders ascending.  The statement sent to the session carries that
    clause, and when the session runs it the rows come back in that
    order. *)
Theorem get_all_order_direction (self : PostgresRepository) (skip limit_ : Z)
    (column direction : string) (c : Column) (s : AsyncSession) :
  find_column (columns (model_class self)) column = Some c →
  let q := order_by (limit (offset (select (model_class self)) skip) limit_)
                    (AColumn c,
                     if String.eqb (lower direction) "desc" then Desc
                     else Asc) in
  get_all self skip limit_ VNone VNone
    (VTuple [VStr column; VStr direction]) s
  = (match statement_error s q with
     | Some e => Raise e
     | None => Ok (scalars (fetch s q))
     end, logged s (Scalars q)).
Proof.
  intros Hc q. subst q. unfold get_all. rewrite query_no_join by done.
  rewrite !bind_lift. cbn. rewrite (getattr_class_column _ _ _ Hc).
  destruct (String.eqb (lower direction) "desc"); cbn; run_session;
    by destruct (statement_error s _).
Qed.

Lemma get_all_order_direction_witness :
  (get_all Fixture.users 0 10 VNone VNone
     (VTuple [VStr "age"; VStr "DeSc"]) Fixture.session).1
  = Ok [Fixture.user 2 "bob" 41; Fixture.user 1 "ann" 30;
        Fixture.user 3 "bob" 25]
  ∧ (get_all Fixture.users 0 10 VNone VNone
       (VTuple [VStr "age"; VStr "descending"]) Fixture.session).1
    = Ok [Fixture.user 3 "bob" 25; Fixture.user 1 "ann" 30;
          Fixture.user 2 "bob" 41]
  ∧ (get_all Fixture.users 0 (-1) VNone VNone
       (VTuple [VStr "age"; VStr "desc"]) Fixture.session).1
    = Raise DBAPIError.
Proof.
  split; [|split].
  - rewrite (get_all_order_direction Fixture.users 0 10 "age" "DeSc"
               Fixture.c_age Fixture.session eq_refl).
    vm_compute. reflexivity.
  - rewrite (get_all_order_direction Fixture.users 0 10 "age" "descending"
               Fixture.c_age Fixture.session eq_refl).
    vm_compute. reflexivity.
  - rewrite (get_all_order_direction Fixture.users 0 (-1) "age" "desc"
               Fixture.c_age Fixture.session eq_refl).
    vm_compute. reflexivity.
Defined.

(** ** Join names that are not strings *)

(** X15.  A member of the [join_] set that is not a string makes
    [_maybe_join] raise [TypeError] when the reduction reaches it (the
    method name cannot be built), after the methods of the names before it
    were applied. *)
Theorem maybe_join_non_string (self : PostgresRepository) (query : Select)
    (names : list string) (ms : list (Select → Select)) (v : value)
    (rest : list value) :
  (∀ x, v ≠ VStr x) →
  Forall2 (λ x m, methods self !! ("_join_" +:+ x) = Some m) names ms →
  _maybe_join self query (VSet ((VStr <$> names) ++ v :: rest))
  = Raise TypeError.
Proof.
  intros Hv H. unfold _maybe_join.
  assert (truthy (VSet ((VStr <$> names) ++ v :: rest)) = true) as ->
    by (by destruct names).
  cbn [negb isinstance_set]. unfold reduce. cbn [iter mbind result_bind].
  revert query. induction H as [|x m names ms Hx _ IH]; intros query.
  - cbn. destruct v; try done. by destruct (Hv s).
  - cbn [fmap list_fmap app foldM _add_join_to_query]. rewrite Hx. cbn.
    apply IH.
Qed.

Lemma maybe_join_non_string_witness :
  _maybe_join Fixture.users (select Fixture.User)
    (VSet [VStr "tasks"; VInt 1; VStr "x"]) = Raise TypeError.
Proof.
  apply (maybe_join_non_string Fixture.users (select Fixture.User)
           ["tasks"] [Fixture._join_tasks] (VInt 1) [VStr "x"]).
  - intros x. discriminate.
  - repeat constructor.
Defined.

(** ** The helpers that read a result *)

(** X16.  On the same statement and session, [_all], [_first], [_one] and
    [_one_or_none] send the same single [scalars] call.  When the session
    raises, all four raise the same exception.  When it runs the
    statement, they differ only in how they read the rows: [_first] does
    not raise and gives the first row of what [_all] gives; [_one_or_none]
    agrees with [_one] when [_one] returns, gives [None] where [_one]
    raises [NoResultFound], and raises [MultipleResultsFound] where [_one]
    does. *)
Theorem scalar_helpers_agree (self : PostgresRepository) (q : Select)
    (s : AsyncSession) :
  let ms := scalars (fetch s q) in
  (_all self q s).2 = logged s (Scalars q)
  ∧ (_first self q s).2 = logged s (Scalars q)
  ∧ (_one self q s).2 = logged s (Scalars q)
  ∧ (_one_or_none self q s).2 = logged s (Scalars q)
  ∧ (∀ e, statement_error s q = Some e →
          (_all self q s).1 = Raise e
          ∧ (_first self q s).1 = Raise e
          ∧ (_one self q s).1 = Raise e
          ∧ (_one_or_none self q s).1 = Raise e)
  ∧ (statement_error s q = None →
     (_all self q s).1 = Ok ms
     ∧ (_first self q s).1 = Ok (head ms)
     ∧ match (_one self q s).1 with
       | Ok m => ms = [m] ∧ (_one_or_none self q s).1 = Ok (Some m)
       | Raise NoResultFound => ms = [] ∧ (_one_or_none self q s).1 = Ok None
       | Raise e => 2 ≤ length ms ∧ (_one_or_none self q s).1 = Raise e
       end).
Proof.
  intros ms. subst ms. unfold _all, _first, _one, _one_or_none, first.
  unfold session_scalars. step_M.
  destruct (statement_error s q) as [e|].
  - do 4 (split; [done|]). split; [|done]. by intros e' [= <-].
  - destruct (scalars (fetch s q)) as [|m [|m' ms]]; cbn;
      do 5 (split; [done|]); intros _; repeat split; try done; lia.
Qed.

Lemma scalar_helpers_agree_witness :
  (_first Fixture.users (select Fixture.User) Fixture.session).1
  = Ok (Some (Fixture.user 1 "ann" 30))
  ∧ (_first Fixture.users (limit (select Fixture.User) (-1))
       Fixture.session).1 = Raise DBAPIError.
Proof.
  split.
  - destruct (scalar_helpers_agree Fixture.users (select Fixture.User)
                Fixture.session) as (_ & _ & _ & _ & _ & H).
    destruct (H eq_refl) as (_ & -> & _). reflexivity.
  - destruct (scalar_helpers_agree Fixture.users
                (limit (select Fixture.User) (-1)) Fixture.session)
      as (_ & _ & _ & _ & H & _).
    by apply H.
Defined.
